(** * LayerSprite: the paint pipeline of one layer

    A shallow embedding of [src/rendering/canvas-elements/layer-sprite.js].
    Numbers are binary64 floats, as in the host language.  The sprite, its
    layer, the tool-option objects owned by the store, the live timeouts, the
    pending promise reactions, the history queue and the log of calls made to
    collaborators are threaded through a state-and-exception monad. *)

From Stdlib Require Import PrimFloat.
From stdpp Require Import base option list strings gmap.

Local Open Scope string_scope.

(** ** Data model *)

Module Point.
Record t := mk { x : float; y : float }.
End Point.

(** A canvas element: [getContext("2d")] answers [null] when the surface has
    no live context. *)
Module Surface.
Record t := mk { live : bool; width : float; height : float }.
End Surface.

Module Effects.
Record t := mk { rotation : float; mirrorX : bool; mirrorY : bool }.
End Effects.

Module Layer.
Record t := mk {
  id : string;
  x : float;
  y : float;
  source : Surface.t;
  mask : option Surface.t;
  maskX : float;
  maskY : float;
  effects : Effects.t
}.
Definition set_x (v : float) (l : t) : t :=
  mk (id l) v (y l) (source l) (mask l) (maskX l) (maskY l) (effects l).
Definition set_y (v : float) (l : t) : t :=
  mk (id l) (x l) v (source l) (mask l) (maskX l) (maskY l) (effects l).
Definition set_maskX (v : float) (l : t) : t :=
  mk (id l) (x l) (y l) (source l) (mask l) v (maskY l) (effects l).
Definition set_maskY (v : float) (l : t) : t :=
  mk (id l) (x l) (y l) (source l) (mask l) (maskX l) v (effects l).
End Layer.

Module Bounds.
Record t := mk { left : float; top : float; width : float; height : float }.
Definition set_left (v : float) (b : t) : t := mk v (top b) (width b) (height b).
Definition set_top (v : float) (b : t) : t := mk (left b) v (width b) (height b).
End Bounds.

(** Addresses of the tool-option objects; the store owns them and the sprite
    and its brush keep references. *)
Definition loc := nat.

Module ToolOptions.
Record t := mk {
  size : float;
  coords : option Point.t;
  sourceLayerId : string
}.
Definition set_coords (v : option Point.t) (o : t) : t :=
  mk (size o) v (sourceLayerId o).
End ToolOptions.

Module Brush.
Record t := mk {
  color : string;
  radius : float;
  pointers : list Point.t;
  options : option loc;
  down : bool;
  last : nat
}.
Definition set_pointers (v : list Point.t) (b : t) : t :=
  mk (color b) (radius b) v (options b) (down b) (last b).
Definition set_down (v : bool) (b : t) : t :=
  mk (color b) (radius b) (pointers b) (options b) v (last b).
Definition set_last (v : nat) (b : t) : t :=
  mk (color b) (radius b) (pointers b) (options b) (down b) v.
End Brush.

(** The part of the zCanvas and of its store that the sprite reads. *)
Module Canvas.
Record t := mk { activeColor : string; lowMemory : bool }.
Definition set_activeColor (v : string) (c : t) : t := mk v (lowMemory c).
End Canvas.

Inductive ToolType : Type :=
| DRAG | FILL | ERASER | BRUSH | CLONE | EYEDROPPER
| OTHER (name : string).

Definition Resource := string.

Inductive TempCanvas : Type := TempCanvasOf (cvs : option Canvas.t).

(** The override configuration of the low resolution preview, kept as the
    call that made it. *)
Inductive Overrides : Type :=
| createOverrideConfig (cvs : option Canvas.t) (pointers : list Point.t).

Inductive Ctx : Type := CtxSource | CtxMask | CtxTemp.

(** Calls made to the drawing contexts and to the rendering collaborators, in
    the order they are made.  A brush handed to a renderer is recorded as it
    is at the time of the call. *)
Inductive Call : Type :=
| ctx_save (c : Ctx)
| ctx_restore (c : Ctx)
| ctx_globalCompositeOperation (c : Ctx) (op : string)
| ctx_scale (c : Ctx) (sx sy : float)
| ctx_fillStyle (c : Ctx) (style : option string)
| ctx_fill (c : Ctx)
| ctx_closePath (c : Ctx)
| ctx_fillRect (c : Ctx) (x y w h : float)
| ctx_clearRect (c : Ctx) (x y w h : float)
| ctx_drawImage (c : Ctx) (image : option Resource)
| clipContextToSelection (c : Ctx) (points : list Point.t) (isFillMode : bool)
    (sX sY : float) (overrides : option Overrides)
| renderClonedStroke (c : Ctx) (brush : Brush.t) (sourceLayerId : string)
    (pointers : list Point.t)
| renderBrushStroke (c : Ctx) (brush : Brush.t) (overrides : option Overrides)
| setBitmap (c : Ctx)
| getTempCanvas (cvs : option Canvas.t)
| disposeTempCanvas
| clearCacheProperty (property : string)
| requestAnimationFrame
| renderEffectsForLayer
| canvasToBlob
| invalidate.

(** The closures of a history entry, as the values they capture. *)
Inductive HistoryAction : Type :=
| restorePaint (state : option Resource)
| restorePosition (left top layerX layerY : float).

Record HistoryEntry := mkEntry {
  undo : HistoryAction;
  redo : HistoryAction;
  resources : list (option Resource)
}.

(** Reactions that wait for a promise or for the next animation frame.
    [JobCacheEffects] is the frame requested by [cacheEffects],
    [JobEffectsRendered] what is left of it once the render it awaits has
    resolved. *)
Inductive Job : Type :=
| JobCacheEffects
| JobEffectsRendered
| JobStoreOriginal
| JobEnqueuePaint (orgState : option Resource)
| JobImageLoad (state : option Resource).

(** The fields of a LayerSprite, those of the zCanvas base class included
    ([_bounds], [_interactive], [_draggable], [isDragging] and the drag
    offsets). *)
Record Sprite := {
  _bounds : Bounds.t;
  _pointerX : float;
  _pointerY : float;
  _brush : Brush.t;
  actionTarget : string;
  _selection : option (list Point.t);
  isDragging : bool;
  _isPaintMode : bool;
  _isDragMode : bool;
  _isColorPicker : bool;
  _toolType : option ToolType;
  _toolOptions : option loc;
  _cloneStartCoords : option Point.t;
  _interactive : bool;
  _draggable : bool;
  _dragStartOffset : option Point.t;
  _dragStartEventCoordinates : option Point.t;
  _pendingPaintState : option positive;
  _orgSourceToStore : option Resource;
  tempCanvas : option TempCanvas;
  _rafFx : bool
}.

(** Everything the sprite can reach.  [registered] tells whether
    [getSpriteForLayer( layer )] answers this sprite; [timers] maps the
    identifier of every live timeout to its delay in milliseconds (the
    callback is always [storePaintState]); [history] lists the
    [enqueueState] calls made so far. *)
Record World := {
  sprite : Sprite;
  layer : Layer.t;
  toolOptionsHeap : gmap loc ToolOptions.t;
  canvas : option Canvas.t;
  registered : bool;
  timers : gmap positive N;
  nextTimer : positive;
  jobs : list Job;
  history : list (string * HistoryEntry);
  calls : list Call
}.

Definition set__bounds (v : Bounds.t) (s : Sprite) : Sprite :=
  Build_Sprite v (_pointerX s) (_pointerY s) (_brush s) (actionTarget s)
    (_selection s) (isDragging s) (_isPaintMode s) (_isDragMode s)
    (_isColorPicker s) (_toolType s) (_toolOptions s) (_cloneStartCoords s)
    (_interactive s) (_draggable s) (_dragStartOffset s)
    (_dragStartEventCoordinates s) (_pendingPaintState s) (_orgSourceToStore
    s) (tempCanvas s) (_rafFx s).
Definition set__pointerX (v : float) (s : Sprite) : Sprite :=
  Build_Sprite (_bounds s) v (_pointerY s) (_brush s) (actionTarget s)
    (_selection s) (isDragging s) (_isPaintMode s) (_isDragMode s)
    (_isColorPicker s) (_toolType s) (_toolOptions s) (_cloneStartCoords s)
    (_interactive s) (_draggable s) (_dragStartOffset s)
    (_dragStartEventCoordinates s) (_pendingPaintState s) (_orgSourceToStore
    s) (tempCanvas s) (_rafFx s).
Definition set__pointerY (v : float) (s : Sprite) : Sprite :=
  Build_Sprite (_bounds s) (_pointerX s) v (_brush s) (actionTarget s)
    (_selection s) (isDragging s) (_isPaintMode s) (_isDragMode s)
    (_isColorPicker s) (_toolType s) (_toolOptions s) (_cloneStartCoords s)
    (_interactive s) (_draggable s) (_dragStartOffset s)
    (_dragStartEventCoordinates s) (_pendingPaintState s) (_orgSourceToStore
    s) (tempCanvas s) (_rafFx s).
Definition set__brush (v : Brush.t) (s : Sprite) : Sprite :=
  Build_Sprite (_bounds s) (_pointerX s) (_pointerY s) v (actionTarget s)
    (_selection s) (isDragging s) (_isPaintMode s) (_isDragMode s)
    (_isColorPicker s) (_toolType s) (_toolOptions s) (_cloneStartCoords s)
    (_interactive s) (_draggable s) (_dragStartOffset s)
    (_dragStartEventCoordinates s) (_pendingPaintState s) (_orgSourceToStore
    s) (tempCanvas s) (_rafFx s).
Definition set_actionTarget (v : string) (s : Sprite) : Sprite :=
  Build_Sprite (_bounds s) (_pointerX s) (_pointerY s) (_brush s) v
    (_selection s) (isDragging s) (_isPaintMode s) (_isDragMode s)
    (_isColorPicker s) (_toolType s) (_toolOptions s) (_cloneStartCoords s)
    (_interactive s) (_draggable s) (_dragStartOffset s)
    (_dragStartEventCoordinates s) (_pendingPaintState s) (_orgSourceToStore
    s) (tempCanvas s) (_rafFx s).
Definition set__selection (v : option (list Point.t)) (s : Sprite) : Sprite :=
  Build_Sprite (_bounds s) (_pointerX s) (_pointerY s) (_brush s)
    (actionTarget s) v (isDragging s) (_isPaintMode s) (_isDragMode s)
    (_isColorPicker s) (_toolType s) (_toolOptions s) (_cloneStartCoords s)
    (_interactive s) (_draggable s) (_dragStartOffset s)
    (_dragStartEventCoordinates s) (_pendingPaintState s) (_orgSourceToStore
    s) (tempCanvas s) (_rafFx s).
Definition set_isDragging (v : bool) (s : Sprite) : Sprite :=
  Build_Sprite (_bounds s) (_pointerX s) (_pointerY s) (_brush s)
    (actionTarget s) (_selection s) v (_isPaintMode s) (_isDragMode s)
    (_isColorPicker s) (_toolType s) (_toolOptions s) (_cloneStartCoords s)
    (_interactive s) (_draggable s) (_dragStartOffset s)
    (_dragStartEventCoordinates s) (_pendingPaintState s) (_orgSourceToStore
    s) (tempCanvas s) (_rafFx s).
Definition set__isPaintMode (v : bool) (s : Sprite) : Sprite :=
  Build_Sprite (_bounds s) (_pointerX s) (_pointerY s) (_brush s)
    (actionTarget s) (_selection s) (isDragging s) v (_isDragMode s)
    (_isColorPicker s) (_toolType s) (_toolOptions s) (_cloneStartCoords s)
    (_interactive s) (_draggable s) (_dragStartOffset s)
    (_dragStartEventCoordinates s) (_pendingPaintState s) (_orgSourceToStore
    s) (tempCanvas s) (_rafFx s).
Definition set__isDragMode (v : bool) (s : Sprite) : Sprite :=
  Build_Sprite (_bounds s) (_pointerX s) (_pointerY s) (_brush s)
    (actionTarget s) (_selection s) (isDragging s) (_isPaintMode s) v
    (_isColorPicker s) (_toolType s) (_toolOptions s) (_cloneStartCoords s)
    (_interactive s) (_draggable s) (_dragStartOffset s)
    (_dragStartEventCoordinates s) (_pendingPaintState s) (_orgSourceToStore
    s) (tempCanvas s) (_rafFx s).
Definition set__isColorPicker (v : bool) (s : Sprite) : Sprite :=
  Build_Sprite (_bounds s) (_pointerX s) (_pointerY s) (_brush s)
    (actionTarget s) (_selection s) (isDragging s) (_isPaintMode s)
    (_isDragMode s) v (_toolType s) (_toolOptions s) (_cloneStartCoords s)
    (_interactive s) (_draggable s) (_dragStartOffset s)
    (_dragStartEventCoordinates s) (_pendingPaintState s) (_orgSourceToStore
    s) (tempCanvas s) (_rafFx s).
Definition set__toolType (v : option ToolType) (s : Sprite) : Sprite :=
  Build_Sprite (_bounds s) (_pointerX s) (_pointerY s) (_brush s)
    (actionTarget s) (_selection s) (isDragging s) (_isPaintMode s)
    (_isDragMode s) (_isColorPicker s) v (_toolOptions s) (_cloneStartCoords
    s) (_interactive s) (_draggable s) (_dragStartOffset s)
    (_dragStartEventCoordinates s) (_pendingPaintState s) (_orgSourceToStore
    s) (tempCanvas s) (_rafFx s).
Definition set__toolOptions (v : option loc) (s : Sprite) : Sprite :=
  Build_Sprite (_bounds s) (_pointerX s) (_pointerY s) (_brush s)
    (actionTarget s) (_selection s) (isDragging s) (_isPaintMode s)
    (_isDragMode s) (_isColorPicker s) (_toolType s) v (_cloneStartCoords s)
    (_interactive s) (_draggable s) (_dragStartOffset s)
    (_dragStartEventCoordinates s) (_pendingPaintState s) (_orgSourceToStore
    s) (tempCanvas s) (_rafFx s).
Definition set__cloneStartCoords (v : option Point.t) (s : Sprite) : Sprite :=
  Build_Sprite (_bounds s) (_pointerX s) (_pointerY s) (_brush s)
    (actionTarget s) (_selection s) (isDragging s) (_isPaintMode s)
    (_isDragMode s) (_isColorPicker s) (_toolType s) (_toolOptions s) v
    (_interactive s) (_draggable s) (_dragStartOffset s)
    (_dragStartEventCoordinates s) (_pendingPaintState s) (_orgSourceToStore
    s) (tempCanvas s) (_rafFx s).
Definition set__interactive (v : bool) (s : Sprite) : Sprite :=
  Build_Sprite (_bounds s) (_pointerX s) (_pointerY s) (_brush s)
    (actionTarget s) (_selection s) (isDragging s) (_isPaintMode s)
    (_isDragMode s) (_isColorPicker s) (_toolType s) (_toolOptions s)
    (_cloneStartCoords s) v (_draggable s) (_dragStartOffset s)
    (_dragStartEventCoordinates s) (_pendingPaintState s) (_orgSourceToStore
    s) (tempCanvas s) (_rafFx s).
Definition set__draggable (v : bool) (s : Sprite) : Sprite :=
  Build_Sprite (_bounds s) (_pointerX s) (_pointerY s) (_brush s)
    (actionTarget s) (_selection s) (isDragging s) (_isPaintMode s)
    (_isDragMode s) (_isColorPicker s) (_toolType s) (_toolOptions s)
    (_cloneStartCoords s) (_interactive s) v (_dragStartOffset s)
    (_dragStartEventCoordinates s) (_pendingPaintState s) (_orgSourceToStore
    s) (tempCanvas s) (_rafFx s).
Definition set__dragStartOffset (v : option Point.t) (s : Sprite) : Sprite :=
  Build_Sprite (_bounds s) (_pointerX s) (_pointerY s) (_brush s)
    (actionTarget s) (_selection s) (isDragging s) (_isPaintMode s)
    (_isDragMode s) (_isColorPicker s) (_toolType s) (_toolOptions s)
    (_cloneStartCoords s) (_interactive s) (_draggable s) v
    (_dragStartEventCoordinates s) (_pendingPaintState s) (_orgSourceToStore
    s) (tempCanvas s) (_rafFx s).
Definition set__dragStartEventCoordinates (v : option Point.t) (s : Sprite) : Sprite :=
  Build_Sprite (_bounds s) (_pointerX s) (_pointerY s) (_brush s)
    (actionTarget s) (_selection s) (isDragging s) (_isPaintMode s)
    (_isDragMode s) (_isColorPicker s) (_toolType s) (_toolOptions s)
    (_cloneStartCoords s) (_interactive s) (_draggable s) (_dragStartOffset
    s) v (_pendingPaintState s) (_orgSourceToStore s) (tempCanvas s) (_rafFx
    s).
Definition set__pendingPaintState (v : option positive) (s : Sprite) : Sprite :=
  Build_Sprite (_bounds s) (_pointerX s) (_pointerY s) (_brush s)
    (actionTarget s) (_selection s) (isDragging s) (_isPaintMode s)
    (_isDragMode s) (_isColorPicker s) (_toolType s) (_toolOptions s)
    (_cloneStartCoords s) (_interactive s) (_draggable s) (_dragStartOffset
    s) (_dragStartEventCoordinates s) v (_orgSourceToStore s) (tempCanvas s)
    (_rafFx s).
Definition set__orgSourceToStore (v : option Resource) (s : Sprite) : Sprite :=
  Build_Sprite (_bounds s) (_pointerX s) (_pointerY s) (_brush s)
    (actionTarget s) (_selection s) (isDragging s) (_isPaintMode s)
    (_isDragMode s) (_isColorPicker s) (_toolType s) (_toolOptions s)
    (_cloneStartCoords s) (_interactive s) (_draggable s) (_dragStartOffset
    s) (_dragStartEventCoordinates s) (_pendingPaintState s) v (tempCanvas
    s) (_rafFx s).
Definition set_tempCanvas (v : option TempCanvas) (s : Sprite) : Sprite :=
  Build_Sprite (_bounds s) (_pointerX s) (_pointerY s) (_brush s)
    (actionTarget s) (_selection s) (isDragging s) (_isPaintMode s)
    (_isDragMode s) (_isColorPicker s) (_toolType s) (_toolOptions s)
    (_cloneStartCoords s) (_interactive s) (_draggable s) (_dragStartOffset
    s) (_dragStartEventCoordinates s) (_pendingPaintState s)
    (_orgSourceToStore s) v (_rafFx s).
Definition set__rafFx (v : bool) (s : Sprite) : Sprite :=
  Build_Sprite (_bounds s) (_pointerX s) (_pointerY s) (_brush s)
    (actionTarget s) (_selection s) (isDragging s) (_isPaintMode s)
    (_isDragMode s) (_isColorPicker s) (_toolType s) (_toolOptions s)
    (_cloneStartCoords s) (_interactive s) (_draggable s) (_dragStartOffset
    s) (_dragStartEventCoordinates s) (_pendingPaintState s)
    (_orgSourceToStore s) (tempCanvas s) v.

Definition set_sprite (v : Sprite) (w : World) : World :=
  Build_World v (layer w) (toolOptionsHeap w) (canvas w) (registered w)
    (timers w) (nextTimer w) (jobs w) (history w) (calls w).
Definition set_layer (v : Layer.t) (w : World) : World :=
  Build_World (sprite w) v (toolOptionsHeap w) (canvas w) (registered w)
    (timers w) (nextTimer w) (jobs w) (history w) (calls w).
Definition set_toolOptionsHeap (v : gmap loc ToolOptions.t) (w : World) : World :=
  Build_World (sprite w) (layer w) v (canvas w) (registered w) (timers w)
    (nextTimer w) (jobs w) (history w) (calls w).
Definition set_canvas (v : option Canvas.t) (w : World) : World :=
  Build_World (sprite w) (layer w) (toolOptionsHeap w) v (registered w)
    (timers w) (nextTimer w) (jobs w) (history w) (calls w).
Definition set_registered (v : bool) (w : World) : World :=
  Build_World (sprite w) (layer w) (toolOptionsHeap w) (canvas w) v (timers
    w) (nextTimer w) (jobs w) (history w) (calls w).
Definition set_timers (v : gmap positive N) (w : World) : World :=
  Build_World (sprite w) (layer w) (toolOptionsHeap w) (canvas w)
    (registered w) v (nextTimer w) (jobs w) (history w) (calls w).
Definition set_nextTimer (v : positive) (w : World) : World :=
  Build_World (sprite w) (layer w) (toolOptionsHeap w) (canvas w)
    (registered w) (timers w) v (jobs w) (history w) (calls w).
Definition set_jobs (v : list Job) (w : World) : World :=
  Build_World (sprite w) (layer w) (toolOptionsHeap w) (canvas w)
    (registered w) (timers w) (nextTimer w) v (history w) (calls w).
Definition set_history (v : list (string * HistoryEntry)) (w : World) : World :=
  Build_World (sprite w) (layer w) (toolOptionsHeap w) (canvas w)
    (registered w) (timers w) (nextTimer w) (jobs w) v (calls w).
Definition set_calls (v : list Call) (w : World) : World :=
  Build_World (sprite w) (layer w) (toolOptionsHeap w) (canvas w)
    (registered w) (timers w) (nextTimer w) (jobs w) (history w) v.

(** ** State and exceptions

    A method either returns in a new world or throws in the world reached so
    far: nothing is rolled back. *)

Inductive Exn : Type :=
| TypeError (msg : string)
| Error (msg : string).

Inductive Res (A : Type) : Type :=
| Ok (a : A) (w : World)
| Throw (e : Exn) (w : World).
Arguments Ok {A} a w.
Arguments Throw {A} e w.

Definition M (A : Type) : Type := World -> Res A.

Definition ret {A} (a : A) : M A := fun w => Ok a w.
Definition bind {A B} (m : M A) (k : A -> M B) : M B :=
  fun w => match m w with
           | Ok a w' => k a w'
           | Throw e w' => Throw e w'
           end.
Definition throw {A} (e : Exn) : M A := fun w => Throw e w.
Definition modify (f : World -> World) : M unit := fun w => Ok tt (f w).
Definition gets {A} (f : World -> A) : M A := fun w => Ok (f w) w.

Declare Scope js_scope.
Delimit Scope js_scope with js.
Notation "x <- c1 ;; c2" := (bind c1 (fun x => c2))
  (at level 100, c1 at next level, right associativity) : js_scope.
Notation "c1 ;; c2" := (bind c1 (fun _ => c2))
  (at level 100, right associativity) : js_scope.
Local Open Scope js_scope.

Definition world_of {A} (r : Res A) : World :=
  match r with Ok _ w => w | Throw _ w => w end.

Definition this {A} (f : Sprite -> A) : M A := gets (fun w => f (sprite w)).
Definition upd (f : Sprite -> Sprite) : M unit :=
  modify (fun w => set_sprite (f (sprite w)) w).
Definition updLayer (f : Layer.t -> Layer.t) : M unit :=
  modify (fun w => set_layer (f (layer w)) w).
Definition call (c : Call) : M unit :=
  modify (fun w => set_calls (calls w ++ [c]) w).
Definition defer (j : Job) : M unit :=
  modify (fun w => set_jobs (jobs w ++ [j]) w).
Definition enqueueState (key : string) (e : HistoryEntry) : M unit :=
  modify (fun w => set_history (history w ++ [(key, e)]) w).
Definition when (b : bool) (m : M unit) : M unit := if b then m else ret tt.

(** Reading a property of [null] or [undefined] is a TypeError. *)
Definition deref {A} (o : option A) (what : string) : M A :=
  match o with
  | Some a => ret a
  | None => throw (TypeError what)
  end.

(** The host hands out a fresh, positive identifier per timeout. *)
Definition setTimeout (delay : N) : M positive :=
  t <- gets nextTimer ;;
  modify (fun w => set_nextTimer (Pos.succ t)
                     (set_timers (<[t := delay]> (timers w)) w)) ;;
  ret t.
Definition clearTimeout (t : positive) : M unit :=
  modify (fun w => set_timers (delete t (timers w)) w).

(** ** Collaborators

    Functions of the repository and of the drawable library that the sprite
    calls for a value and whose code is elsewhere.  [js_rem] is the
    remainder operator on numbers.  [sprite_setBounds] is [setBounds] of the
    base class: it throws, or it answers the bounds it leaves the sprite
    with. *)
Class Externals := {
  js_rem : float -> float -> float;
  translatePointerRotation : float -> float -> float -> float -> float -> Point.t;
  rotatePoints : list Point.t -> float -> float -> float -> list Point.t;
  slicePointers : Brush.t -> list Point.t;
  isSelectionClosed : option (list Point.t) -> bool;
  canDrawOnSelection : Layer.t -> bool;
  BrushFactory_create :
    string -> option float -> list Point.t -> option loc -> Brush.t;
  pickColor : Canvas.t -> float -> float -> string;
  sprite_setBounds : World -> float -> float -> float -> float -> Exn + Bounds.t;
  sprite_handleMove : World -> float -> float -> World
}.

Inductive StoreResult : Type := RetTrue | RetFalse | RetPromise.

Definition isTruthyTool (tool : option ToolType) : bool :=
  match tool with
  | None => false
  | Some (OTHER "") => false
  | Some _ => true
  end.

Definition isTool (t : ToolType) (tool : option ToolType) : bool :=
  match t, tool with
  | DRAG, Some DRAG | FILL, Some FILL | ERASER, Some ERASER
  | BRUSH, Some BRUSH | CLONE, Some CLONE | EYEDROPPER, Some EYEDROPPER => true
  | _, _ => false
  end.

Definition getContext (s : Surface.t) : option Surface.t :=
  if Surface.live s then Some s else None.

Section LayerSprite.
Context `{Externals}.

(** ** Methods *)

Definition setActionTarget (target : string) : M unit :=
  upd (set_actionTarget target).

Definition isMaskable (w : World) : bool :=
  match Layer.mask (layer w) with Some _ => true | None => false end.

Definition isRotated (w : World) : bool :=
  negb (PrimFloat.eqb (js_rem (Effects.rotation (Layer.effects (layer w))) 360) 0).

Definition cacheBrush (color : string) (toolOptions : option loc) : M unit :=
  b <- this _brush ;;
  heap <- gets toolOptionsHeap ;;
  upd (set__brush
         (BrushFactory_create color
            (ToolOptions.size <$> (toolOptions ≫= fun l => heap !! l))
            (Brush.pointers b) toolOptions)).

Definition storeBrushPointer (x y : float) : M unit :=
  upd (fun s => set__brush (Brush.set_down true (_brush s)) s) ;;
  upd (fun s => set__brush
    (Brush.set_pointers (Brush.pointers (_brush s) ++ [Point.mk x y]) (_brush s)) s).

Definition cacheEffects : M unit :=
  pending <- this _rafFx ;;
  if pending then ret tt
  else
    upd (set__rafFx true) ;;
    call requestAnimationFrame ;;
    defer JobCacheEffects.

Definition resetFilterAndRecache : M unit :=
  call (clearCacheProperty "filterData") ;;
  cacheEffects.

Definition setSelection (selection : option (list Point.t)) : M unit :=
  l <- gets layer ;;
  when (isSelectionClosed selection && canDrawOnSelection l)
    (upd (set__selection selection)).

Definition resetSelection : M unit := upd (set__selection None).

Definition forceMoveListener : M unit :=
  upd (set_isDragging true) ;;
  b <- this _bounds ;;
  upd (set__dragStartOffset (Some (Point.mk (Bounds.left b) (Bounds.top b)))) ;;
  px <- this _pointerX ;;
  py <- this _pointerY ;;
  upd (set__dragStartEventCoordinates (Some (Point.mk px py))).

Definition debouncePaintStore (timeout : N) : M unit :=
  t <- setTimeout timeout ;;
  upd (set__pendingPaintState (Some t)).

Definition preparePendingPaintState : M unit :=
  call canvasToBlob ;;
  defer JobStoreOriginal ;;
  debouncePaintStore 5000%N.

Definition storePaintState : M StoreResult :=
  pending <- this _pendingPaintState ;;
  match pending with
  | None => ret RetTrue
  | Some t =>
      clearTimeout t ;;
      b <- this _brush ;;
      if Brush.down b then
        debouncePaintStore 1000%N ;;
        ret RetFalse
      else
        upd (set__pendingPaintState None) ;;
        orgState <- this _orgSourceToStore ;;
        upd (set__orgSourceToStore None) ;;
        call canvasToBlob ;;
        defer (JobEnqueuePaint orgState) ;;
        ret RetPromise
  end.

(** [rotatePointerLists] rewrites every point of the list in place; the list
    keeps its length and its order. *)
Definition rotatePointer (l : Layer.t) (sourceWidth sourceHeight : float)
    (point : Point.t) : Point.t :=
  let fx := Layer.effects l in
  let p := translatePointerRotation
             (Point.x point - Layer.x l) (Point.y point - Layer.y l)
             (sourceWidth * 0.5) (sourceHeight * 0.5) (Effects.rotation fx) in
  let px := if Effects.mirrorX fx then (Point.x p - sourceWidth)%float
            else Point.x p in
  let py := if Effects.mirrorY fx then (Point.y p - sourceHeight)%float
            else Point.y p in
  Point.mk px py.

Definition rotatePointerLists (pointers : list Point.t) (l : Layer.t)
    (sourceWidth sourceHeight : float) : list Point.t :=
  map (rotatePointer l sourceWidth sourceHeight) pointers.

(** The brush stroke of [paint]: the live preview on the low resolution
    canvas while the brush is down, the full list on the layer otherwise.
    Answers the context that is current afterwards. *)
Definition paintBrushStroke (target : Ctx) (width height : float)
    (selectionPoints : option (list Point.t)) (isFillMode : bool)
    (sX sY : float) (pointers : list Point.t) : M Ctx :=
  brush <- this _brush ;;
  if Brush.down brush then
    tc <- this tempCanvas ;;
    cvs <- gets canvas ;;
    match tc with
    | Some _ => ret tt
    | None => call (getTempCanvas cvs) ;;
              upd (set_tempCanvas (Some (TempCanvasOf cvs)))
    end ;;
    let overrides := createOverrideConfig cvs pointers in
    call (ctx_restore target) ;;
    bounds <- this _bounds ;;
    match selectionPoints with
    | Some pts =>
        call (clipContextToSelection CtxTemp pts isFillMode
                (sX - Bounds.left bounds) (sY - Bounds.top bounds)
                (Some overrides))
    | None => ret tt
    end ;;
    call (renderBrushStroke CtxTemp brush (Some overrides)) ;;
    ret CtxTemp
  else
    l <- gets layer ;;
    upd (fun s => set__brush
      (Brush.set_pointers
         (rotatePointerLists (Brush.pointers (_brush s)) l width height)
         (_brush s)) s) ;;
    rotated <- this _brush ;;
    call (renderBrushStroke target rotated None) ;;
    ret target.

Definition paint : M unit :=
  pending <- this _pendingPaintState ;;
  match pending with
  | None => preparePendingPaintState
  | Some _ => ret tt
  end ;;
  bounds <- this _bounds ;;
  l <- gets layer ;;
  let left := Bounds.left bounds in
  let top := Bounds.top bounds in
  let fx := Layer.effects l in
  drawOnMask <- gets isMaskable ;;
  toolType <- this _toolType ;;
  let isEraser := isTool ERASER toolType in
  let isCloneStamp := isTool CLONE toolType in
  let isFillMode := isTool FILL toolType in
  let target := if drawOnMask then CtxMask else CtxSource in
  ctx <- deref (getContext (default (Layer.source l) (Layer.mask l)))
           "ctx is null" ;;
  let width := Surface.width ctx in
  let height := Surface.height ctx in
  call (ctx_save target) ;;
  when isEraser (call (ctx_globalCompositeOperation target "destination-out")) ;;
  selection <- this _selection ;;
  rotated <- gets isRotated ;;
  let rotCenterX := (Bounds.width bounds * 0.5)%float in
  let rotCenterY := (Bounds.height bounds * 0.5)%float in
  let selectionPoints :=
    if rotated
    then (fun pts => rotatePoints pts rotCenterX rotCenterY (Effects.rotation fx))
           <$> selection
    else selection in
  let sX := if rotated then 0%float else left in
  let sY := if rotated then 0%float else top in
  match selectionPoints with
  | Some pts => call (clipContextToSelection target pts isFillMode sX sY None)
  | None => ret tt
  end ;;
  call (ctx_scale target (if Effects.mirrorX fx then (-1)%float else 1%float)
                         (if Effects.mirrorY fx then (-1)%float else 1%float)) ;;
  current <-
    (if isFillMode then
       cvs <- gets canvas ;;
       call (ctx_fillStyle target (Canvas.activeColor <$> cvs)) ;;
       match selection with
       | Some _ => call (ctx_fill target) ;; call (ctx_closePath target)
       | None => call (ctx_fillRect target 0 0 width height)
       end ;;
       ret target
     else
       brush <- this _brush ;;
       let pointers := slicePointers brush in
       if isCloneStamp then
         (if Brush.down brush then
            ref <- this _toolOptions ;;
            heap <- gets toolOptionsHeap ;;
            opts <- deref (ref ≫= fun r => heap !! r) "_toolOptions is null" ;;
            call (renderClonedStroke target brush (ToolOptions.sourceLayerId opts)
                    (rotatePointerLists pointers l width height)) ;;
            call (setBitmap target)
          else ret tt) ;;
         ret target
       else
         paintBrushStroke target width height selectionPoints isFillMode
           sX sY pointers) ;;
  call (ctx_restore current) ;;
  brush <- this _brush ;;
  when (negb (Brush.down brush)) resetFilterAndRecache.

(** The closures enqueued by [setBounds], run at a later time. *)
Definition positionSpriteFromHistory (x y : float) : M unit :=
  found <- gets registered ;;
  when found
    (upd (fun s => set__bounds (Bounds.set_left x (_bounds s)) s) ;;
     upd (fun s => set__bounds (Bounds.set_top y (_bounds s)) s) ;;
     call invalidate).

Definition restorePaintFromHistory (state : option Resource) : M unit :=
  l <- gets layer ;;
  ctx <- deref (getContext (Layer.source l)) "ctx is null" ;;
  call (ctx_clearRect CtxSource 0 0 (Surface.width ctx) (Surface.height ctx)) ;;
  defer (JobImageLoad state).

Definition runAction (a : HistoryAction) : M unit :=
  match a with
  | restorePosition bx by_ layerX layerY =>
      positionSpriteFromHistory bx by_ ;;
      updLayer (Layer.set_x layerX) ;;
      updLayer (Layer.set_y layerY)
  | restorePaint state => restorePaintFromHistory state
  end.

Definition setBounds (x y width height : float) : M unit :=
  bounds <- this _bounds ;;
  l <- gets layer ;;
  let left := Bounds.left bounds in
  let top := Bounds.top bounds in
  let oldLayerX := Layer.x l in
  let oldLayerY := Layer.y l in
  let keep := PrimFloat.eqb width 0 || PrimFloat.eqb height 0 in
  let width := if keep then Bounds.width bounds else width in
  let height := if keep then Bounds.height bounds else height in
  base <- gets (fun w => sprite_setBounds w x y width height) ;;
  match base with
  | inl e => throw e
  | inr b => upd (set__bounds b)
  end ;;
  bounds <- this _bounds ;;
  let newX := Bounds.left bounds in
  let newY := Bounds.top bounds in
  l <- gets layer ;;
  let newLayerX := (Layer.x l + (newX - left))%float in
  let newLayerY := (Layer.y l + (newY - top))%float in
  updLayer (Layer.set_x newLayerX) ;;
  updLayer (Layer.set_y newLayerY) ;;
  enqueueState ("spritePos_" ++ Layer.id l)
    (mkEntry (restorePosition left top oldLayerX oldLayerY)
             (restorePosition newX newY newLayerX newLayerY) []) ;;
  call invalidate.

(** [setInteractive] of the base class stores the flag. *)
Definition handleActiveLayer (id : string) : M unit :=
  l <- gets layer ;;
  upd (set__interactive (String.eqb (Layer.id l) id)).

Definition handleActiveTool (tool : option ToolType) (toolOptions : option loc)
    (documentSelection : option (list Point.t)) : M unit :=
  upd (set_isDragging false) ;;
  upd (set__isPaintMode false) ;;
  upd (set__isDragMode false) ;;
  upd (set__isColorPicker false) ;;
  upd (set__selection None) ;;
  upd (set__toolType None) ;;
  upd (set__toolOptions None) ;;
  upd (set__cloneStartCoords None) ;;
  storePaintState ;;
  interactive <- this _interactive ;;
  if negb interactive || negb (isTruthyTool tool) then ret tt
  else
    upd (set__toolType tool) ;;
    upd (set__toolOptions toolOptions) ;;
    match tool with
    | Some DRAG =>
        upd (set__isDragMode true) ;;
        upd (set__draggable true)
    | Some FILL | Some ERASER | Some BRUSH | Some CLONE =>
        forceMoveListener ;;
        upd (set__draggable true) ;;
        upd (set__isPaintMode true) ;;
        cvs <- gets canvas ;;
        c <- deref cvs "canvas is undefined" ;;
        cacheBrush (Canvas.activeColor c) toolOptions ;;
        setSelection documentSelection
    | Some EYEDROPPER =>
        upd (set__isColorPicker true)
    | _ =>
        upd (set__draggable false)
    end ;;
    call invalidate.

Definition handlePress (x y : float) (type : string) : M unit :=
  when (String.prefix "touch" type)
    (upd (set__pointerX x) ;; upd (set__pointerY y)) ;;
  colorPicker <- this _isColorPicker ;;
  paintMode <- this _isPaintMode ;;
  toolType <- this _toolType ;;
  if colorPicker then
    cvs <- gets canvas ;;
    c <- deref cvs "canvas is undefined" ;;
    modify (set_canvas (Some (Canvas.set_activeColor (pickColor c x y) c)))
  else if paintMode then
    if isTool CLONE toolType then
      ref <- this _toolOptions ;;
      heap <- gets toolOptionsHeap ;;
      match ref, ref ≫= (fun r => heap !! r) with
      | Some r, Some opts =>
          match ToolOptions.coords opts with
          | None =>
              modify (set_toolOptionsHeap
                (<[r := ToolOptions.set_coords (Some (Point.mk x y)) opts]> heap))
          | Some _ =>
              start <- this _cloneStartCoords ;;
              match start with
              | None => upd (set__cloneStartCoords (Some (Point.mk x y)))
              | Some _ => ret tt
              end ;;
              storeBrushPointer x y
          end
      | _, _ => throw (TypeError "_toolOptions is null")
      end
    else if isTool FILL toolType then paint
    else storeBrushPointer x y
  else ret tt.

Definition handleMove (x y : float) (type : string) : M unit :=
  when (negb (String.prefix "touch" type))
    (upd (set__pointerX x) ;; upd (set__pointerY y)) ;;
  paintMode <- this _isPaintMode ;;
  target <- this actionTarget ;;
  dragMode <- this _isDragMode ;;
  let brushing :=
    brush <- this _brush ;;
    when (Brush.down brush) (storeBrushPointer x y) in
  if negb paintMode && String.eqb target "mask" then
    offset <- this _dragStartOffset ;;
    offset <- deref offset "_dragStartOffset is undefined" ;;
    start <- this _dragStartEventCoordinates ;;
    start <- deref start "_dragStartEventCoordinates is undefined" ;;
    bounds <- this _bounds ;;
    updLayer (Layer.set_maskX
      (Point.x offset + ((x - Bounds.left bounds) - Point.x start))) ;;
    updLayer (Layer.set_maskY
      (Point.y offset + ((y - Bounds.top bounds) - Point.y start))) ;;
    resetFilterAndRecache ;;
    brushing
  else if negb paintMode && dragMode then
    modify (fun w => sprite_handleMove w x y)
  else brushing.

Definition handleRelease (x y : float) : M unit :=
  brush <- this _brush ;;
  when (Brush.down brush)
    (call disposeTempCanvas ;;
     upd (set_tempCanvas None) ;;
     upd (fun s => set__brush (Brush.set_down false (_brush s)) s) ;;
     upd (fun s => set__brush (Brush.set_last 0 (_brush s)) s) ;;
     paint ;;
     upd (fun s => set__brush (Brush.set_pointers [] (_brush s)) s) ;;
     cvs <- gets canvas ;;
     c <- deref cvs "canvas is undefined" ;;
     when (negb (Canvas.lowMemory c)) (storePaintState ;; ret tt)) ;;
  paintMode <- this _isPaintMode ;;
  when paintMode forceMoveListener.

Definition update : M unit :=
  brush <- this _brush ;;
  when (Brush.down brush)
    (paint ;;
     upd (fun s => set__brush
       (Brush.set_last (length (Brush.pointers (_brush s))) (_brush s)) s)).

(** ** The host: timers, promises and the event loop *)

(** A live timeout runs out: it is spent and its callback,
    [storePaintState], runs. *)
Definition fireTimer (t : positive) : M unit :=
  live <- gets timers ;;
  match live !! t with
  | None => ret tt
  | Some _ => clearTimeout t ;; storePaintState ;; ret tt
  end.

(** A pending reaction runs; [r] is the resource made of the encoded blob. *)
Definition runJob (j : Job) (r : Resource) : M unit :=
  match j with
  | JobCacheEffects =>
      call renderEffectsForLayer ;;
      defer JobEffectsRendered
  | JobEffectsRendered =>
      upd (set__rafFx false)
  | JobStoreOriginal =>
      upd (set__orgSourceToStore (Some r))
  | JobEnqueuePaint orgState =>
      l <- gets layer ;;
      enqueueState ("spritePaint_" ++ Layer.id l)
        (mkEntry (restorePaint orgState) (restorePaint (Some r))
                 [orgState; Some r])
  | JobImageLoad state =>
      call (ctx_drawImage CtxSource state) ;;
      found <- gets registered ;;
      when found resetFilterAndRecache
  end.

Definition resolveJob (i : nat) (r : Resource) : M unit :=
  pending <- gets jobs ;;
  match pending !! i with
  | None => ret tt
  | Some j =>
      modify (set_jobs (take i pending ++ drop (S i) pending)) ;;
      runJob j r
  end.

Inductive Event : Type :=
| Press (x y : float) (type : string)
| Move (x y : float) (type : string)
| Release (x y : float)
| Update
| ActiveTool (tool : option ToolType) (toolOptions : option loc)
    (documentSelection : option (list Point.t))
| TimerFires (t : positive)
| JobResolves (i : nat) (r : Resource).

Definition step (e : Event) : M unit :=
  match e with
  | Press x y type => handlePress x y type
  | Move x y type => handleMove x y type
  | Release x y => handleRelease x y
  | Update => update
  | ActiveTool tool toolOptions sel => handleActiveTool tool toolOptions sel
  | TimerFires t => fireTimer t
  | JobResolves i r => resolveJob i r
  end.

(** An exception ends the handler that raised it, not the event loop. *)
Definition run (evs : list Event) (w : World) : World :=
  fold_left (fun w e => world_of (step e w)) evs w.

End LayerSprite.

(** ** A concrete setting

    Collaborators for a layer that is never rotated, and a world to run the
    methods in.  The remainder is exact where the dividend is smaller than
    the divisor, and no other case is evaluated below.  The base class
    stores the bounds it is handed and refuses a sprite that is on no
    canvas, as the drawable library does for a sprite without constraint. *)

#[local] Instance demo : Externals := {|
  js_rem a b := if (PrimFloat.abs a <? PrimFloat.abs b)%float then a else nan;
  translatePointerRotation x y cx cy _ :=
    Point.mk ((x - cx) * 1 + (y - cy) * 0 + cx) ((y - cy) * 1 - (x - cx) * 0 + cy);
  rotatePoints pts _ _ _ := pts;
  slicePointers b := drop (Brush.last b) (Brush.pointers b);
  isSelectionClosed sel :=
    match sel with
    | Some (p :: q :: rest) =>
        let z := List.last (q :: rest) p in
        PrimFloat.eqb (Point.x p) (Point.x z) && PrimFloat.eqb (Point.y p) (Point.y z)
    | _ => false
    end;
  canDrawOnSelection _ := true;
  BrushFactory_create color radius pointers options :=
    Brush.mk color (default 10%float radius) pointers options false 0;
  pickColor _ _ _ := "rgba(0,0,0,0)";
  sprite_setBounds w x y width height :=
    match canvas w with
    | Some _ => inr (Bounds.mk x y width height)
    | None =>
        inl (Error "cannot update position of a zSprite that has no bounds or is not added to a zCanvas")
    end;
  sprite_handleMove w _ _ := w
|}.

Definition demoSurface : Surface.t := Surface.mk true 100 80.

Definition demoLayer : Layer.t :=
  Layer.mk "layer_1" 0 0 demoSurface None 0 0 (Effects.mk 0 false false).

Definition demoBrush : Brush.t :=
  Brush.mk "rgba(255,0,0,1)" 10 [] (Some 0) false 0.

Definition demoSprite : Sprite := {|
  _bounds := Bounds.mk 0 0 100 80;
  _pointerX := 0;
  _pointerY := 0;
  _brush := demoBrush;
  actionTarget := "source";
  _selection := None;
  isDragging := true;
  _isPaintMode := true;
  _isDragMode := false;
  _isColorPicker := false;
  _toolType := Some BRUSH;
  _toolOptions := Some 0;
  _cloneStartCoords := None;
  _interactive := true;
  _draggable := true;
  _dragStartOffset := Some (Point.mk 0 0);
  _dragStartEventCoordinates := Some (Point.mk 0 0);
  _pendingPaintState := None;
  _orgSourceToStore := None;
  tempCanvas := None;
  _rafFx := false
|}.

Definition demoWorld : World := {|
  sprite := demoSprite;
  layer := demoLayer;
  toolOptionsHeap := {[ 0 := ToolOptions.mk 10 None "layer_1" ]};
  canvas := Some (Canvas.mk "rgba(255,0,0,1)" false);
  registered := true;
  timers := ∅;
  nextTimer := 1%positive;
  jobs := [];
  history := [];
  calls := []
|}.


(** ** Specifications

    [hoare P m Q E]: from a world in [P], [m] returns [a] in a world in
    [Q a] or throws in a world in [E]. *)
Definition hoare {A} (P : World -> Prop) (m : M A)
    (Q : A -> World -> Prop) (E : World -> Prop) : Prop :=
  forall w, P w ->
    match m w with
    | Ok a w' => Q a w'
    | Throw _ w' => E w'
    end.

(** [preserves P m]: [P] holds after [m], however [m] ends. *)
Definition preserves {A} (P : World -> Prop) (m : M A) : Prop :=
  hoare P m (fun _ => P) P.

(** ** Reading the call log *)

Definition contextOf (c : Call) : option Ctx :=
  match c with
  | ctx_save k | ctx_restore k | ctx_globalCompositeOperation k _
  | ctx_scale k _ _ | ctx_fillStyle k _ | ctx_fill k | ctx_closePath k
  | ctx_fillRect k _ _ _ _ | ctx_clearRect k _ _ _ _ | ctx_drawImage k _
  | clipContextToSelection k _ _ _ _ _ | renderClonedStroke k _ _ _
  | renderBrushStroke k _ _ | setBitmap k => Some k
  | _ => None
  end.

(** A call that touches a surface of the layer touches [k]; calls on the
    preview canvas and calls on no context are free. *)
Definition drawsOn (k : Ctx) (c : Call) : Prop :=
  match contextOf c with
  | Some CtxTemp | None => True
  | Some k' => k' = k
  end.

(** The brush strokes handed to [renderBrushStroke], oldest first. *)
Definition renderOf (c : Call) : option (Ctx * Brush.t * option Overrides) :=
  match c with
  | renderBrushStroke k b o => Some (k, b, o)
  | _ => None
  end.

Definition brushRenders (cs : list Call) : list (Ctx * Brush.t * option Overrides) :=
  omap renderOf cs.

(** The commits whose encoding is under way: the original state each one
    will put in its history entry. *)
Definition commitOf (j : Job) : option (option Resource) :=
  match j with
  | JobEnqueuePaint orgState => Some orgState
  | _ => None
  end.

Definition commits (js : list Job) : list (option Resource) := omap commitOf js.

(** ** Strokes *)

Definition isBrushTool (tool : option ToolType) : bool :=
  match tool with
  | Some BRUSH | Some ERASER => true
  | _ => false
  end.

(** What may happen between the press and the release of a stroke. *)
Definition duringStroke (e : Event) : bool :=
  match e with
  | Move _ _ _ | Update | TimerFires _ | JobResolves _ _ => true
  | _ => false
  end.

Definition movedPoint (e : Event) : option Point.t :=
  match e with
  | Move x y _ => Some (Point.mk x y)
  | _ => None
  end.

Definition movedPoints (evs : list Event) : list Point.t := omap movedPoint evs.

(** The surface [paint] asks for a context. *)
Definition targetSurface (w : World) : Surface.t :=
  default (Layer.source (layer w)) (Layer.mask (layer w)).

Definition targetCtx (w : World) : Ctx :=
  if isMaskable w then CtxMask else CtxSource.

(** The timer of the pending cycle fires, if a cycle is pending. *)
Definition flush `{Externals} (w : World) : World :=
  match _pendingPaintState (sprite w) with
  | Some t => world_of (fireTimer t w)
  | None => w
  end.

(** ** Assertions

    Relations between the world a method starts in and the worlds it passes
    through. *)

(** The calls made since [c0] all satisfy [P]. *)
Definition appended (c0 : list Call) (P : Call -> Prop) (w : World) : Prop :=
  exists cs, calls w = (c0 ++ cs)%list /\ Forall P cs.

Definition targetInv (w0 : World) (w : World) : Prop :=
  layer w = layer w0 /\
  appended (calls w0) (drawsOn (if isMaskable w0 then CtxMask else CtxSource)) w.

Definition idleInv (w0 w : World) : Prop :=
  history w = history w0 /\ jobs w = jobs w0 /\ timers w = timers w0 /\
  nextTimer w = nextTimer w0 /\ _pendingPaintState (sprite w) = None.

(** A call [c] was made since [c0]. *)
Definition appendedHas (c0 : list Call) (c : Call) (w : World) : Prop :=
  exists cs, calls w = (c0 ++ cs)%list /\ In c cs.

Definition savedInv (w0 : World) (w : World) : Prop :=
  targetInv w0 w /\
  appendedHas (calls w0) (ctx_save (if isMaskable w0 then CtxMask else CtxSource)) w.

(** ** More worlds *)

Definition withLayer (l : Layer.t) (w : World) : World := set_layer l w.

Definition withActionTarget (target : string) (w : World) : World :=
  set_sprite (set_actionTarget target (sprite w)) w.

(** The demo layer with a mask, while the sprite acts on the source. *)
Definition maskedWorld : World :=
  set_layer
    (Layer.mk "layer_1" 0 0 demoSurface (Some (Surface.mk true 100 80)) 0 0
       (Effects.mk 0 false false))
    demoWorld.

(** The demo layer with a source that has lost its context. *)
Definition deadWorld : World :=
  set_layer
    (Layer.mk "layer_1" 0 0 (Surface.mk false 100 80) None 0 0
       (Effects.mk 0 false false))
    demoWorld.

(** The demo world after the clone tool has been chosen. *)
Definition cloneWorld : World :=
  world_of (handleActiveTool (Some CLONE) (Some 0) None demoWorld).

(** A stroke in progress that has recorded [ps]. *)
Definition strokeInv (w0 : World) (ps : list Point.t) (w : World) : Prop :=
  Brush.down (_brush (sprite w)) = true /\
  Brush.pointers (_brush (sprite w)) = ps /\
  _isPaintMode (sprite w) = true /\
  _toolType (sprite w) = _toolType (sprite w0) /\
  layer w = layer w0 /\ canvas w = canvas w0.

(** The live timeouts are the timeout of the pending cycle and no other. *)
Definition cycleInv (w : World) : Prop :=
  match _pendingPaintState (sprite w) with
  | Some t => exists d, timers w = {[t := d]}
  | None => timers w = ∅
  end.

(** The world during a [paint] that started in [w1]: the brush is [b], the
    strokes rendered so far are [rs], a snapshot cycle is pending (the one
    of [w1], or one started with a fresh timeout of 5000 ms), and the rest
    is as in [w1]. *)
Definition paintRel (w1 : World) (b : Brush.t)
    (rs : list (Ctx * Brush.t * option Overrides)) (w : World) : Prop :=
  _brush (sprite w) = b /\ brushRenders (calls w) = rs /\
  layer w = layer w1 /\ canvas w = canvas w1 /\ history w = history w1 /\
  commits (jobs w) = commits (jobs w1) /\
  _toolType (sprite w) = _toolType (sprite w1) /\
  _isPaintMode (sprite w) = _isPaintMode (sprite w1) /\
  _orgSourceToStore (sprite w) = _orgSourceToStore (sprite w1) /\
  _pendingPaintState (sprite w) =
    Some (default (nextTimer w1) (_pendingPaintState (sprite w1))) /\
  timers w = match _pendingPaintState (sprite w1) with
             | None => <[nextTimer w1 := 5000%N]> (timers w1)
             | Some _ => timers w1
             end /\
  nextTimer w = match _pendingPaintState (sprite w1) with
                | None => Pos.succ (nextTimer w1)
                | Some _ => nextTimer w1
                end.

(** The world after the release of a stroke that was in progress in [w1]:
    [rs] are the strokes rendered; with [committed] the pending cycle has
    been closed and its commit is under way, without it the cycle is still
    pending. *)
Definition releaseRel (w1 : World) (b : Brush.t)
    (rs : list (Ctx * Brush.t * option Overrides)) (committed : bool)
    (w : World) : Prop :=
  let t := default (nextTimer w1) (_pendingPaintState (sprite w1)) in
  let armed := match _pendingPaintState (sprite w1) with
               | None => <[nextTimer w1 := 5000%N]> (timers w1)
               | Some _ => timers w1
               end in
  _brush (sprite w) = b /\ brushRenders (calls w) = rs /\
  layer w = layer w1 /\ canvas w = canvas w1 /\ history w = history w1 /\
  _toolType (sprite w) = _toolType (sprite w1) /\
  _isPaintMode (sprite w) = _isPaintMode (sprite w1) /\
  nextTimer w = match _pendingPaintState (sprite w1) with
                | None => Pos.succ (nextTimer w1)
                | Some _ => nextTimer w1
                end /\
  if committed then
    _pendingPaintState (sprite w) = None /\
    timers w = delete t armed /\
    commits (jobs w) = (commits (jobs w1) ++ [_orgSourceToStore (sprite w1)])%list /\
    _orgSourceToStore (sprite w) = None
  else
    _pendingPaintState (sprite w) = Some t /\
    timers w = armed /\
    commits (jobs w) = commits (jobs w1) /\
    _orgSourceToStore (sprite w) = _orgSourceToStore (sprite w1).

(** A stroke of three points with a frame, a timer and an encoding in
    between. *)
Definition demoStroke : list Event :=
  [Move 12 10 "mousemove"; Update; Move 14 11 "mousemove";
   TimerFires 1; JobResolves 0 "blob:original"].

(** The demo world under the reduced-memory preference. *)
Definition lowMemoryWorld : World :=
  set_canvas (Some (Canvas.mk "rgba(255,0,0,1)" true)) demoWorld.

(** The snapshot state of a world in which a cycle is pending. *)
Definition pendingInv (w0 : World) (w : World) : Prop :=
  _pendingPaintState (sprite w) = _pendingPaintState (sprite w0) /\
  timers w = timers w0 /\ nextTimer w = nextTimer w0 /\
  _orgSourceToStore (sprite w) = _orgSourceToStore (sprite w0) /\
  commits (jobs w) = commits (jobs w0) /\ history w = history w0.

(** The cycle that was pending in [w0] under timeout [t] has been closed
    and its commit is under way. *)
Definition flushedInv (w0 : World) (t : positive) (w : World) : Prop :=
  _pendingPaintState (sprite w) = None /\
  timers w = delete t (timers w0) /\ nextTimer w = nextTimer w0 /\
  commits (jobs w) = (commits (jobs w0) ++ [_orgSourceToStore (sprite w0)])%list /\
  history w = history w0 /\ layer w = layer w0.

(** ** Tool modes *)

(** The drag, paint and colour-picker flags a tool stands for. *)
Definition expectedModes (tool : option ToolType) : bool * bool * bool :=
  match tool with
  | Some DRAG => (true, false, false)
  | Some FILL | Some ERASER | Some BRUSH | Some CLONE => (false, true, false)
  | Some EYEDROPPER => (false, false, true)
  | _ => (false, false, false)
  end.

Definition toolModes (w : World) : bool * bool * bool :=
  (_isDragMode (sprite w), _isPaintMode (sprite w), _isColorPicker (sprite w)).

(** The tool state of the sprite during a tool change that began in [w0]. *)
Definition toolState (w0 : World) (modes : bool * bool * bool)
    (tool : option ToolType) (selection : option (list Point.t))
    (w : World) : Prop :=
  toolModes w = modes /\ _toolType (sprite w) = tool /\
  _selection (sprite w) = selection /\
  _cloneStartCoords (sprite w) = None /\
  _interactive (sprite w) = _interactive (sprite w0) /\
  layer w = layer w0.

(** ** History *)

(** The entry enqueued last. *)
Definition lastEntry (w : World) : option HistoryEntry := snd <$> last (history w).

(** ** The layer during a stroke *)

(** A call that leaves the pixels and the cached effects of the layer as
    they are: it draws on the preview canvas or draws nothing at all. *)
Definition leavesLayer (c : Call) : Prop :=
  match c with
  | ctx_fill k | ctx_fillRect k _ _ _ _ | ctx_clearRect k _ _ _ _
  | ctx_drawImage k _ | renderClonedStroke k _ _ _ | renderBrushStroke k _ _
  | setBitmap k => k = CtxTemp
  | clearCacheProperty _ | requestAnimationFrame | renderEffectsForLayer => False
  | _ => True
  end.

(** A live preview that began in [w0]: the brush of a brush tool is down,
    and every call made since leaves the layer as it is. *)
Definition previewInv (w0 : World) (w : World) : Prop :=
  Brush.down (_brush (sprite w)) = true /\
  Brush.pointers (_brush (sprite w)) = Brush.pointers (_brush (sprite w0)) /\
  isBrushTool (_toolType (sprite w)) = true /\
  layer w = layer w0 /\ _rafFx (sprite w) = _rafFx (sprite w0) /\
  appended (calls w0) leavesLayer w.

(** The state of the sprite once the brush has been lifted. *)
Definition liftedInv (w0 : World) (w : World) : Prop :=
  Brush.down (_brush (sprite w)) = false /\
  Brush.last (_brush (sprite w)) = 0 /\
  tempCanvas (sprite w) = None /\
  appendedHas (calls w0) disposeTempCanvas w.

(** The demo world after the eyedropper has been chosen. *)
Definition pickerWorld : World :=
  world_of (handleActiveTool (Some EYEDROPPER) None None demoWorld).

(** The masked demo layer with the mask as the action target and the drag
    tool chosen. *)
Definition maskDragWorld : World :=
  world_of (handleActiveTool (Some DRAG) None None
              (world_of (setActionTarget "mask" maskedWorld))).


(** ** Projections of the call log *)

(** [paint] seen through a projection [f] of its calls: what it reads is as
    in [w0], and the calls it has made project to [idx]. *)
Definition logInv {B} (f : Call -> option B) (w0 : World) (idx : list B)
    (w : World) : Prop :=
  layer w = layer w0 /\ canvas w = canvas w0 /\
  toolOptionsHeap w = toolOptionsHeap w0 /\
  _toolType (sprite w) = _toolType (sprite w0) /\
  _toolOptions (sprite w) = _toolOptions (sprite w0) /\
  _selection (sprite w) = _selection (sprite w0) /\
  _bounds (sprite w) = _bounds (sprite w0) /\
  Brush.down (_brush (sprite w)) = Brush.down (_brush (sprite w0)) /\
  omap f (calls w) = (omap f (calls w0) ++ idx)%list.

(** Saving and restoring the state of a context. *)
Variant StackOp : Type := Save | Restore.

Definition stackOf (c : Call) : option (Ctx * StackOp) :=
  match c with
  | ctx_save k => Some (k, Save)
  | ctx_restore k => Some (k, Restore)
  | _ => None
  end.

(** [paint] renders the live preview: the brush is down and the tool is
    neither the fill tool nor the clone stamp. *)
Definition previewing (w : World) : bool :=
  Brush.down (_brush (sprite w)) &&
  negb (isTool FILL (_toolType (sprite w))) &&
  negb (isTool CLONE (_toolType (sprite w))).

(** The compositing operations set on a context. *)
Definition compositeOf (c : Call) : option (Ctx * string) :=
  match c with
  | ctx_globalCompositeOperation k op => Some (k, op)
  | _ => None
  end.









(** The demo sprite on no canvas. *)
Definition offCanvasWorld : World := set_canvas None demoWorld.

(** ** The ledger of paint entries

    A world in paint mode in which the live timeouts are those of the
    pending cycle, seen from the history [h] and the commits under way
    [cs]; [down] tells what is known of the brush. *)
Definition ledgerSt (w0 : World) (down : option bool)
    (h : list (string * HistoryEntry)) (cs : list (option Resource))
    (w : World) : Prop :=
  match down with
  | Some d => Brush.down (_brush (sprite w)) = d
  | None => True
  end /\
  _isPaintMode (sprite w) = true /\
  layer w = layer w0 /\
  cycleInv w /\
  history w = h /\ commits (jobs w) = cs.

(** The same with a cycle pending. *)
Definition pendingSt (w0 : World) (down : option bool)
    (h : list (string * HistoryEntry)) (cs : list (option Resource))
    (w : World) : Prop :=
  ledgerSt w0 down h cs w /\ _pendingPaintState (sprite w) <> None.

(** The world after a release: the brush is up, and the cycle of the stroke
    is either still pending or closed with its commit under way. *)
Definition releasedSt (w0 : World) (h : list (string * HistoryEntry))
    (cs : list (option Resource)) (w : World) : Prop :=
  Brush.down (_brush (sprite w)) = false /\
  layer w = layer w0 /\
  cycleInv w /\
  history w = h /\
  match _pendingPaintState (sprite w) with
  | Some _ => commits (jobs w) = cs
  | None => exists org, commits (jobs w) = (cs ++ [org])%list
  end.

(** The clone world after the press that has set the source coordinates. *)
Definition cloneReadyWorld : World :=
  world_of (handlePress 5 5 "mousedown" cloneWorld).

(** * Properties *)

Local Close Scope string_scope.

(** ** Rules of the program logic *)

Lemma hoare_ret {A} (P : World -> Prop) (a : A) (Q : A -> World -> Prop) E :
  (forall w, P w -> Q a w) -> hoare P (ret a) Q E.
Proof. intros HQ w Hw. apply HQ, Hw. Qed.

Lemma hoare_throw {A} (P : World -> Prop) e (Q : A -> World -> Prop)
    (E : World -> Prop) :
  (forall w, P w -> E w) -> hoare P (throw e) Q E.
Proof. intros HE w Hw. apply HE, Hw. Qed.

Lemma hoare_gets {A} (P : World -> Prop) (f : World -> A)
    (Q : A -> World -> Prop) E :
  (forall w, P w -> Q (f w) w) -> hoare P (gets f) Q E.
Proof. intros HQ w Hw. apply HQ, Hw. Qed.

Lemma hoare_modify (P : World -> Prop) (g : World -> World)
    (Q : unit -> World -> Prop) E :
  (forall w, P w -> Q tt (g w)) -> hoare P (modify g) Q E.
Proof. intros HQ w Hw. apply HQ, Hw. Qed.

Lemma hoare_bind {A B} (P : World -> Prop) (m : M A) (k : A -> M B)
    (R : A -> World -> Prop) (Q : B -> World -> Prop) (E : World -> Prop) :
  hoare P m R E -> (forall a, hoare (R a) (k a) Q E) -> hoare P (bind m k) Q E.
Proof.
  intros Hm Hk w Hw. unfold bind. specialize (Hm w Hw).
  destruct (m w) as [a w'|e w']; [apply (Hk a w' Hm)|exact Hm].
Qed.

(** A value read from the world comes with the world it was read in. *)
Lemma hoare_bind_gets {A B} (P : World -> Prop) (f : World -> A)
    (k : A -> M B) (Q : B -> World -> Prop) (E : World -> Prop) :
  (forall a, (exists w, P w /\ f w = a) -> hoare P (k a) Q E) ->
  hoare P (bind (gets f) k) Q E.
Proof.
  intros Hk w Hw. unfold bind, gets. apply (Hk (f w)); [exists w; auto|exact Hw].
Qed.

Lemma hoare_bind_modify {B} (P P' : World -> Prop) (g : World -> World)
    (k : unit -> M B) (Q : B -> World -> Prop) (E : World -> Prop) :
  (forall w, P w -> P' (g w)) -> hoare P' (k tt) Q E ->
  hoare P (bind (modify g) k) Q E.
Proof. intros Hg Hk w Hw. unfold bind, modify. apply Hk, Hg, Hw. Qed.

Lemma hoare_bind_inv {A B} (P : World -> Prop) (m : M A) (k : A -> M B)
    (Q : B -> World -> Prop) (E : World -> Prop) :
  hoare P m (fun _ => P) E -> (forall a, hoare P (k a) Q E) ->
  hoare P (bind m k) Q E.
Proof. intros Hm Hk. eapply hoare_bind; [exact Hm|exact Hk]. Qed.

Lemma hoare_bind_modify_inv {B} (P : World -> Prop) (g : World -> World)
    (k : unit -> M B) (Q : B -> World -> Prop) (E : World -> Prop) :
  (forall w, P w -> P (g w)) -> hoare P (k tt) Q E ->
  hoare P (bind (modify g) k) Q E.
Proof. apply hoare_bind_modify. Qed.

Lemma hoare_bind_assoc {A B C} (P : World -> Prop) (m : M A) (f : A -> M B)
    (k : B -> M C) Q E :
  hoare P (bind m (fun x => bind (f x) k)) Q E ->
  hoare P (bind (bind m f) k) Q E.
Proof.
  intros Hm w Hw. specialize (Hm w Hw). unfold bind in *.
  destruct (m w); exact Hm.
Qed.

Lemma hoare_bind_ret {A B} (P : World -> Prop) (a : A) (k : A -> M B) Q E :
  hoare P (k a) Q E -> hoare P (bind (ret a) k) Q E.
Proof. intros Hk w Hw. exact (Hk w Hw). Qed.

Lemma hoare_bind_throw {A B} (P : World -> Prop) e (k : A -> M B) Q
    (E : World -> Prop) :
  (forall w, P w -> E w) -> hoare P (bind (throw e) k) Q E.
Proof. intros HE w Hw. apply HE, Hw. Qed.

Lemma hoare_prelude {A B C} (P : World -> Prop) (m : M A) (f : A -> M B)
    (k : B -> M C) (R : B -> World -> Prop) Q E :
  hoare P (bind m f) R E -> (forall b, hoare (R b) (k b) Q E) ->
  hoare P (bind m (fun a => bind (f a) k)) Q E.
Proof.
  intros Hm Hk w Hw. specialize (Hm w Hw). unfold bind in *.
  destruct (m w) as [a w1|e w1]; [|exact Hm].
  destruct (f a w1) as [b w2|e w2]; [apply (Hk b w2 Hm)|exact Hm].
Qed.

Lemma hoare_conseq {A} (P P' : World -> Prop) (m : M A)
    (Q Q' : A -> World -> Prop) (E E' : World -> Prop) :
  hoare P' m Q' E' ->
  (forall w, P w -> P' w) -> (forall a w, Q' a w -> Q a w) ->
  (forall w, E' w -> E w) ->
  hoare P m Q E.
Proof.
  intros Hm HP HQ HE w Hw. specialize (Hm w (HP w Hw)).
  destruct (m w); auto.
Qed.

Lemma hoare_pre {A} (P P' : World -> Prop) (m : M A) Q E :
  (forall w, P w -> P' w) -> hoare P' m Q E -> hoare P m Q E.
Proof. intros HP Hm. eapply hoare_conseq; eauto. Qed.

Lemma hoare_false {A} (m : M A) Q E : hoare (fun _ => False) m Q E.
Proof. intros w []. Qed.

Lemma preserves_world_of {A} (P : World -> Prop) (m : M A) (w : World) :
  preserves P m -> P w -> P (world_of (m w)).
Proof. intros Hm Hw. specialize (Hm w Hw). destruct (m w); exact Hm. Qed.

Lemma hoare_world_of {A} (P Q : World -> Prop) (m : M A) (w : World) :
  hoare P m (fun _ => Q) Q -> P w -> Q (world_of (m w)).
Proof. intros Hm Hw. specialize (Hm w Hw). destruct (m w); exact Hm. Qed.

Lemma hoare_ok {A} (P : World -> Prop) (m : M A) Q (w : World) :
  hoare P m Q (fun _ => False) -> P w -> exists a w', m w = Ok a w' /\ Q a w'.
Proof.
  intros Hm Hw. specialize (Hm w Hw). destruct (m w) as [a w'|e w'];
    [exists a, w'; auto|contradiction].
Qed.

(** ** Symbolic steps *)

Ltac world_cbn :=
  cbn [world_of
       sprite layer toolOptionsHeap canvas registered timers nextTimer jobs history calls
       set_sprite set_layer set_toolOptionsHeap set_canvas set_registered set_timers
       set_nextTimer set_jobs set_history set_calls
       _bounds _pointerX _pointerY _brush actionTarget _selection isDragging _isPaintMode
       _isDragMode _isColorPicker _toolType _toolOptions _cloneStartCoords _interactive
       _draggable _dragStartOffset _dragStartEventCoordinates _pendingPaintState
       _orgSourceToStore tempCanvas _rafFx
       set__bounds set__pointerX set__pointerY set__brush set_actionTarget set__selection
       set_isDragging set__isPaintMode set__isDragMode set__isColorPicker set__toolType
       set__toolOptions set__cloneStartCoords set__interactive set__draggable
       set__dragStartOffset set__dragStartEventCoordinates set__pendingPaintState
       set__orgSourceToStore set_tempCanvas set__rafFx
       Brush.color Brush.radius Brush.pointers Brush.options Brush.down Brush.last
       Brush.set_pointers Brush.set_down Brush.set_last
       Layer.id Layer.x Layer.y Layer.source Layer.mask Layer.maskX Layer.maskY Layer.effects
       Layer.set_x Layer.set_y Layer.set_maskX Layer.set_maskY
       Bounds.left Bounds.top Bounds.width Bounds.height Bounds.set_left Bounds.set_top
       ToolOptions.size ToolOptions.coords ToolOptions.sourceLayerId ToolOptions.set_coords
       Canvas.activeColor Canvas.lowMemory Canvas.set_activeColor] in *.

Ltac js_cbn :=
  cbv beta iota delta
    [bind ret throw modify gets this upd updLayer call defer enqueueState
     when deref setTimeout clearTimeout];
  world_cbn.

Ltac split_ands :=
  repeat match goal with H : _ /\ _ |- _ => destruct H end.

(** What is known of the values read so far. *)
Ltac open_reads :=
  repeat match goal with
         | H : exists w, _ /\ _ = _ |- _ =>
             let w := fresh "w" in
             let HP := fresh "HP" in
             let Hv := fresh "Hv" in
             destruct H as (w & HP & Hv)
         end.

Ltac head_of t :=
  lazymatch t with
  | ?f _ => head_of f
  | _ => t
  end.

(** [hstep tkeep tno tlem]: one step of a program under an assertion that
    every update keeps.  [tkeep] shows that an update keeps it, [tno]
    refutes a branch that the values read exclude, [tlem] closes a call of
    a method that has its own lemma. *)
Ltac hbranch tno :=
  try (solve [exfalso; open_reads; tno]).

Ltac hstep_with tkeep tno tlem :=
  lazymatch goal with
  | |- hoare _ (bind (gets _) _) _ _ =>
      apply hoare_bind_gets; intros ? ?
  | |- hoare _ (bind (modify _) _) _ _ =>
      apply hoare_bind_modify_inv; [solve [tkeep]|]
  | |- hoare _ (bind (bind _ _) _) _ _ =>
      apply hoare_bind_inv; [|intros ?]
  | |- hoare _ (bind (ret _) _) _ _ =>
      apply hoare_bind_inv; [apply hoare_ret; intros ? HP; exact HP|intros ?]
  | |- hoare _ (bind (if ?b then _ else _) _) _ _ =>
      apply hoare_bind_inv; [|intros ?]
  | |- hoare _ (bind (match ?x with _ => _ end) _) _ _ =>
      apply hoare_bind_inv; [|intros ?]
  | |- hoare _ (bind ?m _) _ _ =>
      first [ apply hoare_bind_inv; [solve [tlem]|intros ?]
            | let h := head_of m in unfold h at 1; cbv beta ]
  | |- hoare _ (ret _) _ _ => apply hoare_ret; solve [tkeep]
  | |- hoare _ (throw _) _ _ => apply hoare_throw; solve [tkeep]
  | |- hoare _ (gets _) _ _ => apply hoare_gets; solve [tkeep]
  | |- hoare _ (modify _) _ _ => apply hoare_modify; solve [tkeep]
  | |- hoare _ (if ?b then _ else _) _ _ =>
      destruct b eqn:?; hbranch tno
  | |- hoare _ (match ?x with _ => _ end) _ _ =>
      destruct x eqn:?; hbranch tno
  | |- hoare _ (let _ := _ in _) _ _ => cbv zeta
  | |- hoare _ ?m _ _ =>
      first [ solve [tlem]
            | let h := head_of m in unfold h; cbv beta ]
  | |- preserves _ _ => unfold preserves
  end.

Ltac hstep tkeep tno := hstep_with tkeep tno ltac:(fail).
Ltac hsteps tkeep tno := repeat (hstep tkeep tno).
Ltac hsteps_with tkeep tno tlem := repeat (hstep_with tkeep tno tlem).

(** The same, with the rest of the program carried into every branch, for
    where the value a block returns matters. *)
Ltac hflat tkeep tno :=
  lazymatch goal with
  | |- hoare _ (bind (bind _ _) _) _ _ => apply hoare_bind_assoc
  | |- hoare _ (bind (ret _) _) _ _ => apply hoare_bind_ret; cbv beta
  | |- hoare _ (bind (throw _) _) _ _ => apply hoare_bind_throw; solve [tkeep]
  | |- hoare _ (bind (if ?b then _ else _) _) _ _ =>
      destruct b eqn:?; hbranch tno
  | |- hoare _ (bind (match ?x with _ => _ end) _) _ _ =>
      destruct x eqn:?; hbranch tno
  | |- _ => hstep tkeep tno
  end.

Ltac hflats tkeep tno := repeat (hflat tkeep tno).

(** Steps of the main line only: a block met on the way is closed at once. *)
Ltac hnext tkeep tno :=
  lazymatch goal with
  | |- hoare _ (bind (gets _) _) _ _ => hstep tkeep tno
  | |- hoare _ (bind (modify _) _) _ _ => hstep tkeep tno
  | |- hoare _ (bind (let _ := _ in _) _) _ _ => cbv zeta
  | |- hoare _ (bind (this _) _) _ _ => unfold this at 1
  | |- hoare _ (bind (upd _) _) _ _ => unfold upd at 1
  | |- hoare _ (bind (updLayer _) _) _ _ => unfold updLayer at 1
  | |- hoare _ (bind (call _) _) _ _ => unfold call at 1
  | |- hoare _ (bind (defer _) _) _ _ => unfold defer at 1
  | |- hoare _ (bind (enqueueState _ _) _) _ _ => unfold enqueueState at 1
  | |- hoare _ (bind (deref ?o _) _) _ _ =>
      unfold deref at 1; destruct o eqn:?;
      [apply hoare_bind_ret; cbv beta
      |hbranch tno; try (apply hoare_bind_throw; solve [tkeep])]
  | |- hoare _ (bind _ _) _ _ =>
      apply hoare_bind_inv; [solve [hsteps tkeep tno]|intros ?]
  | |- _ => hstep tkeep tno
  end.

Section Basics.
Context `{Externals}.

(** ** Selection guard *)

(** C7. [setSelection] stores the selection exactly when [isSelectionClosed]
    accepts it and [canDrawOnSelection] accepts the layer; in every other
    case the call returns normally and nothing at all changes. *)
Theorem setSelection_stores_only_closed_and_permitted :
  forall (selection : option (list Point.t)) (w : World),
    setSelection selection w =
    Ok tt (if isSelectionClosed selection && canDrawOnSelection (layer w)
           then set_sprite (set__selection selection (sprite w)) w
           else w).
Proof.
  intros selection w. unfold setSelection, bind, gets, when, upd, modify, ret.
  destruct (isSelectionClosed selection && canDrawOnSelection (layer w));
    reflexivity.
Qed.

(** ** Pointer transform *)

Lemma rotatePointerLists_lookup (pointers : list Point.t) (l : Layer.t)
    (sw sh : float) (i : nat) :
  rotatePointerLists pointers l sw sh !! i =
  rotatePointer l sw sh <$> pointers !! i.
Proof. unfold rotatePointerLists. apply list_lookup_fmap. Qed.

Lemma rotatePointerLists_length (pointers : list Point.t) (l : Layer.t)
    (sw sh : float) :
  length (rotatePointerLists pointers l sw sh) = length pointers.
Proof. unfold rotatePointerLists. apply length_map. Qed.

(** C6. Every point of the list is rotated about the half dimensions and
    then, on a mirrored axis, moved back by the full dimension; a rotated
    x of 5 on a surface 100 wide that is mirrored becomes -95. *)
Theorem rotatePointerLists_mirror_full_dimension :
  forall (pointers : list Point.t) (l : Layer.t) (sourceWidth sourceHeight : float)
         (i : nat) (point : Point.t),
    pointers !! i = Some point ->
    let fx := Layer.effects l in
    let p := translatePointerRotation
               (Point.x point - Layer.x l) (Point.y point - Layer.y l)
               (sourceWidth * 0.5) (sourceHeight * 0.5) (Effects.rotation fx) in
    exists out,
      rotatePointerLists pointers l sourceWidth sourceHeight !! i = Some out /\
      Point.x out = (if Effects.mirrorX fx then Point.x p - sourceWidth
                     else Point.x p)%float /\
      Point.y out = (if Effects.mirrorY fx then Point.y p - sourceHeight
                     else Point.y p)%float /\
      (Effects.mirrorX fx = true -> Point.x p = 5%float ->
       sourceWidth = 100%float -> Point.x out = (-95)%float).
Proof.
  intros pointers l sw sh i point Hi fx p.
  exists (rotatePointer l sw sh point). split.
  - rewrite rotatePointerLists_lookup, Hi. reflexivity.
  - unfold rotatePointer. fold fx. fold p. simpl. repeat split.
    intros Hm Hp Hw. rewrite Hm, Hp, Hw. reflexivity.
Qed.

End Basics.

Lemma rotatePointerLists_mirror_full_dimension_witness :
  exists out,
    rotatePointerLists [Point.mk 5 7] 
      (Layer.mk "layer_1" 0 0 demoSurface None 0 0 (Effects.mk 0 true false))
      100 80 !! 0 = Some out /\
    Point.x out = (-95)%float /\ Point.y out = 7%float.
Proof.
  destruct (rotatePointerLists_mirror_full_dimension [Point.mk 5 7]
    (Layer.mk "layer_1" 0 0 demoSurface None 0 0 (Effects.mk 0 true false))
    100 80 0 (Point.mk 5 7) eq_refl) as (out & Hout & Hx & Hy & H95).
  exists out. split; [exact Hout|]. split.
  - apply H95; reflexivity.
  - rewrite Hy. reflexivity.
Defined.

(** ** What [paint] draws on *)

Lemma appended_call c0 (P : Call -> Prop) w w' c :
  appended c0 P w -> P c -> calls w' = calls w ++ [c] -> appended c0 P w'.
Proof.
  intros (cs & Hcs & HP) Hc Hg. exists (cs ++ [c]). split.
  - rewrite Hg, Hcs, app_assoc. reflexivity.
  - apply Forall_app. split; [exact HP|]. constructor; [exact Hc|constructor].
Qed.

Lemma appended_same c0 (P : Call -> Prop) w w' :
  appended c0 P w -> calls w' = calls w -> appended c0 P w'.
Proof. intros (cs & Hcs & HP) Hg. exists cs. rewrite Hg. auto. Qed.

Ltac target_inv :=
  intros; open_reads; unfold targetInv in *; split_ands; subst;
  split; [world_cbn; congruence|];
  first [ eapply appended_same; [eassumption|reflexivity]
        | eapply appended_call; [eassumption| |reflexivity];
          unfold drawsOn, contextOf, isMaskable in *;
          repeat match goal with
                 | H : layer _ = layer _ |- _ => rewrite H in *
                 | |- context [match ?x with _ => _ end] => destruct x
                 end; try reflexivity; try exact I; try congruence ].

Section Target.
Context `{Externals}.

Lemma paint_targetInv w0 : preserves (targetInv w0) paint.
Proof.
  unfold paint.
  repeat (lazymatch goal with
          | |- hoare _ (bind (if isTool FILL _ then _ else _) _) _ _ => fail
          | |- _ => idtac
          end; hnext target_inv idtac).
  hflats target_inv idtac.
Qed.

End Target.

Section Idle.
Context `{Externals}.

(** ** Snapshot cycle: flushing with nothing pending *)

Ltac idle_keep :=
  intros; open_reads; unfold idleInv in *; split_ands; subst; world_cbn;
  repeat split; congruence.

Ltac idle_no :=
  unfold idleInv in *; split_ands; subst; congruence.

Lemma handleActiveTool_idleInv w0 tool toolOptions documentSelection :
  preserves (idleInv w0) (handleActiveTool tool toolOptions documentSelection).
Proof. hsteps idle_keep idle_no. Qed.

(** C10. With no snapshot cycle pending, [storePaintState] answers [true] in
    the very same world; hence a tool change, which flushes the pending
    state, queues no history entry, starts no encoding and arms no timer. *)
Theorem storePaintState_idle_is_noop :
  forall w : World,
    _pendingPaintState (sprite w) = None ->
    storePaintState w = Ok RetTrue w /\
    forall tool toolOptions documentSelection,
      let w' := world_of (handleActiveTool tool toolOptions documentSelection w) in
      history w' = history w /\ jobs w' = jobs w /\ timers w' = timers w /\
      nextTimer w' = nextTimer w /\ _pendingPaintState (sprite w') = None.
Proof.
  intros w Hp. split.
  - unfold storePaintState. js_cbn. rewrite Hp. reflexivity.
  - intros tool opts sel.
    apply (preserves_world_of (idleInv w)); [apply handleActiveTool_idleInv|].
    unfold idleInv. auto.
Qed.

End Idle.

Lemma storePaintState_idle_is_noop_witness :
  storePaintState demoWorld = Ok RetTrue demoWorld /\
  history (world_of (handleActiveTool (Some ERASER) (Some 0) None demoWorld)) = [].
Proof.
  destruct (storePaintState_idle_is_noop demoWorld eq_refl) as [Hs Ht].
  split; [exact Hs|]. apply (Ht (Some ERASER) (Some 0) None).
Defined.


Lemma appendedHas_call c0 c w w' c' :
  appendedHas c0 c w -> calls w' = calls w ++ [c'] -> appendedHas c0 c w'.
Proof.
  intros (cs & Hcs & Hin) Hg. exists (cs ++ [c']). split.
  - rewrite Hg, Hcs, app_assoc. reflexivity.
  - apply in_or_app. left. exact Hin.
Qed.

Lemma appendedHas_same c0 c w w' :
  appendedHas c0 c w -> calls w' = calls w -> appendedHas c0 c w'.
Proof. intros (cs & Hcs & Hin) Hg. exists cs. rewrite Hg. auto. Qed.

Lemma appendedHas_first c0 c w' :
  calls w' = c0 ++ [c] -> appendedHas c0 c w'.
Proof. intros Hg. exists [c]. split; [exact Hg|left; reflexivity]. Qed.

Lemma appendedHas_new c0 (P : Call -> Prop) c w w' :
  appended c0 P w -> calls w' = calls w ++ [c] -> appendedHas c0 c w'.
Proof.
  intros (cs & Hcs & _) Hg. exists (cs ++ [c]). split.
  - rewrite Hg, Hcs, app_assoc. reflexivity.
  - apply in_or_app. right. left. reflexivity.
Qed.

Ltac saved_keep :=
  first
    [ solve [target_inv]
    | solve [intros ? [? ?]; assumption]
    | let w := fresh "w" in
      let Ht := fresh "Ht" in
      let Hs := fresh "Hs" in
      intros w [Ht Hs]; split;
      [ target_inv
      | first [ eapply appendedHas_same; [eassumption|reflexivity]
              | eapply appendedHas_call; [eassumption|reflexivity] ] ] ].

Section Saved.
Context `{Externals}.

Lemma paint_savedInv w0 :
  hoare (targetInv w0) paint (fun _ => savedInv w0) (targetInv w0).
Proof.
  unfold paint.
  repeat (lazymatch goal with
          | |- hoare _ (bind (call (ctx_save _)) _) _ _ => fail
          | |- _ => idtac
          end; hnext target_inv idtac).
  unfold call at 1.
  apply (hoare_bind_modify _ (savedInv w0)).
  { intros w Hw. split; [revert w Hw; target_inv|].
    destruct Hw as [Hl Ha]. eapply appendedHas_new; [exact Ha|].
    open_reads. unfold targetInv, isMaskable in *. split_ands. subst.
    world_cbn. repeat match goal with Hx : layer _ = layer _ |- _ => rewrite Hx end. reflexivity. }
  repeat (lazymatch goal with
          | |- hoare _ (bind (if isTool FILL _ then _ else _) _) _ _ => fail
          | |- _ => idtac
          end; hnext saved_keep idtac).
  hflats saved_keep idtac.
Qed.

End Saved.

Section TargetClaim.
Context `{Externals}.

(** C4 (as the code has it).  [paint] takes the context of the mask whenever
    the layer has a mask and the context of the source otherwise; the action
    target plays no part.  No call of a [paint] touches the other surface,
    and a [paint] that returns has saved the context of the chosen one. *)
Theorem paint_target_is_mask_iff_maskable :
  forall (w : World) (target : string),
    let chosen := if isMaskable w then CtxMask else CtxSource in
    exists cs,
      calls (world_of (paint (withActionTarget target w))) = calls w ++ cs /\
      Forall (drawsOn chosen) cs /\
      (forall w', paint (withActionTarget target w) = Ok tt w' ->
                  In (ctx_save chosen) cs).
Proof.
  intros w target chosen.
  pose (w1 := withActionTarget target w).
  assert (Hm : isMaskable w1 = isMaskable w) by reflexivity.
  assert (Hc : calls w1 = calls w) by reflexivity.
  assert (H0 : targetInv w1 w1).
  { split; [reflexivity|]. exists []. split; [symmetry; apply app_nil_r|constructor]. }
  pose proof (paint_savedInv w1 w1 H0) as Hp.
  fold w1. destruct (paint w1) as [[] w'|e w'] eqn:Hr; cbn [world_of].
  - destruct Hp as [[_ (cs & Hcs & Hall)] (cs' & Hcs' & Hin)].
    rewrite Hm, Hc in *. exists cs. split; [exact Hcs|]. split; [exact Hall|].
    intros _ _. rewrite Hcs in Hcs'. apply app_inv_head in Hcs'. subst cs'.
    exact Hin.
  - destruct Hp as [_ (cs & Hcs & Hall)].
    rewrite Hm, Hc in *. exists cs. split; [exact Hcs|]. split; [exact Hall|].
    intros ? Hok. discriminate Hok.
Qed.

End TargetClaim.

Lemma paint_target_is_mask_iff_maskable_witness :
  exists cs,
    calls (world_of (paint (withActionTarget "source" maskedWorld))) =
      calls maskedWorld ++ cs /\
    Forall (drawsOn CtxMask) cs /\ In (ctx_save CtxMask) cs.
Proof.
  destruct (paint_target_is_mask_iff_maskable maskedWorld "source")
    as (cs & Hcs & Hall & Hin).
  exists cs. split; [exact Hcs|]. split; [exact Hall|].
  apply (Hin (world_of (paint (withActionTarget "source" maskedWorld)))).
  vm_compute. reflexivity.
Defined.

(** Against C4 as stated: the sprite acts on the source, the layer has a
    mask, and [paint] draws on the mask and never on the source. *)
Lemma paint_ignores_actionTarget_counterexample :
  actionTarget (sprite maskedWorld) = "source"%string /\
  isMaskable maskedWorld = true /\
  (exists w', paint maskedWorld = Ok tt w' /\
     In (ctx_save CtxMask) (calls w') /\
     Forall (fun c => contextOf c <> Some CtxSource) (calls w')).
Proof.
  split; [reflexivity|]. split; [reflexivity|].
  eexists. split; [vm_compute; reflexivity|]. split.
  - cbn. auto.
  - repeat constructor; discriminate.
Qed.

Section NoContext.
Context `{Externals}.

(** ** A draw target without a context *)

(** C5 (as the code has it).  When the chosen surface answers no context,
    [paint] throws a TypeError at the first use of the context.  No call
    reaches a drawing context; layer, brush, selection and history are as
    before.  A pending snapshot cycle leaves the world as it was; with none
    pending, one has been started before the throw. *)
Theorem paint_without_context_throws :
  forall w : World,
    getContext (default (Layer.source (layer w)) (Layer.mask (layer w))) = None ->
    exists w',
      paint w = Throw (TypeError "ctx is null") w' /\
      layer w' = layer w /\ _brush (sprite w') = _brush (sprite w) /\
      _selection (sprite w') = _selection (sprite w) /\
      history w' = history w /\
      match _pendingPaintState (sprite w) with
      | Some _ => w' = w
      | None =>
          _pendingPaintState (sprite w') = Some (nextTimer w) /\
          timers w' = <[nextTimer w := 5000%N]> (timers w) /\
          jobs w' = jobs w ++ [JobStoreOriginal] /\
          calls w' = calls w ++ [canvasToBlob]
      end.
Proof.
  intros w Hdead.
  unfold paint, preparePendingPaintState, debouncePaintStore. js_cbn.
  destruct (_pendingPaintState (sprite w)) as [t|] eqn:Hp; js_cbn;
    rewrite Hdead; eexists; (split; [reflexivity|]); world_cbn; auto 10.
Qed.

End NoContext.

Lemma paint_without_context_throws_witness :
  exists w', paint deadWorld = Throw (TypeError "ctx is null") w' /\
             _pendingPaintState (sprite w') = Some 1%positive.
Proof.
  destruct (paint_without_context_throws deadWorld eq_refl)
    as (w' & Hthrow & _ & _ & _ & _ & Hp & _).
  exists w'. split; [exact Hthrow|exact Hp].
Defined.

(** Against C5 as stated: on a source without a context [paint] does not
    return, and the world it throws in is not the world it started in. *)
Lemma paint_without_context_counterexample :
  (forall w', paint deadWorld <> Ok tt w') /\
  exists e w', paint deadWorld = Throw e w' /\
    _pendingPaintState (sprite deadWorld) = None /\
    _pendingPaintState (sprite w') = Some 1%positive /\
    timers w' !! 1%positive = Some 5000%N.
Proof.
  split.
  - intros w'. vm_compute. discriminate.
  - eexists _, _. split; [vm_compute; reflexivity|].
    split; [reflexivity|]. split; [reflexivity|]. vm_compute. reflexivity.
Qed.

Section Clone.
Context `{Externals}.

(** ** Clone stamp: source first, stroke second *)

(** C8. With the clone tool active and no source coordinates in the tool
    options, a press stores its position as the source coordinates of the
    shared options object and does nothing else to brush, layer or drawing
    contexts.  The next press stores the clone start coordinates, marks the
    brush down and records its position as a pointer, still without
    painting. *)
Theorem handlePress_clone_source_then_stroke :
  forall (w : World) (r : loc) (opts : ToolOptions.t)
         (x y : float) (type : string) (x2 y2 : float) (type2 : string),
    _isColorPicker (sprite w) = false ->
    _isPaintMode (sprite w) = true ->
    _toolType (sprite w) = Some CLONE ->
    _toolOptions (sprite w) = Some r ->
    toolOptionsHeap w !! r = Some opts ->
    ToolOptions.coords opts = None ->
    _cloneStartCoords (sprite w) = None ->
    exists w1,
      handlePress x y type w = Ok tt w1 /\
      toolOptionsHeap w1 !! r =
        Some (ToolOptions.set_coords (Some (Point.mk x y)) opts) /\
      calls w1 = calls w /\ layer w1 = layer w /\
      _brush (sprite w1) = _brush (sprite w) /\
      _cloneStartCoords (sprite w1) = None /\
      exists w2,
        handlePress x2 y2 type2 w1 = Ok tt w2 /\
        _cloneStartCoords (sprite w2) = Some (Point.mk x2 y2) /\
        Brush.down (_brush (sprite w2)) = true /\
        Brush.pointers (_brush (sprite w2)) =
          Brush.pointers (_brush (sprite w)) ++ [Point.mk x2 y2] /\
        calls w2 = calls w /\ layer w2 = layer w /\
        toolOptionsHeap w2 = toolOptionsHeap w1.
Proof.
  intros w r opts x y type x2 y2 type2 Hcp Hpm Htt Hto Hh Hc Hcs.
  assert (Hrun : forall (u : World) px py ty,
    _isColorPicker (sprite u) = false -> _isPaintMode (sprite u) = true ->
    _toolType (sprite u) = Some CLONE -> _toolOptions (sprite u) = Some r ->
    forall o, toolOptionsHeap u !! r = Some o ->
    exists u',
      handlePress px py ty u = Ok tt u' /\
      calls u' = calls u /\ layer u' = layer u /\
      _isColorPicker (sprite u') = false /\ _isPaintMode (sprite u') = true /\
      _toolType (sprite u') = Some CLONE /\ _toolOptions (sprite u') = Some r /\
      match ToolOptions.coords o with
      | None =>
          toolOptionsHeap u' =
            <[r := ToolOptions.set_coords (Some (Point.mk px py)) o]>
              (toolOptionsHeap u) /\
          _brush (sprite u') = _brush (sprite u) /\
          _cloneStartCoords (sprite u') = _cloneStartCoords (sprite u)
      | Some _ =>
          toolOptionsHeap u' = toolOptionsHeap u /\
          _brush (sprite u') =
            Brush.set_pointers
              (Brush.pointers (_brush (sprite u)) ++ [Point.mk px py])
              (Brush.set_down true (_brush (sprite u))) /\
          _cloneStartCoords (sprite u') =
            Some (default (Point.mk px py) (_cloneStartCoords (sprite u)))
      end).
  { intros u px py ty Hu1 Hu2 Hu3 Hu4 o Hu5.
    unfold handlePress, storeBrushPointer. js_cbn.
    destruct (String.prefix "touch" ty); js_cbn;
      rewrite Hu1, Hu2, Hu3; cbn [isTool]; js_cbn; rewrite Hu4;
      cbn [mbind option_bind]; rewrite Hu5;
      destruct (ToolOptions.coords o); js_cbn;
      try destruct (_cloneStartCoords (sprite u)) eqn:Hs; js_cbn;
      (eexists; split; [reflexivity|]); world_cbn;
      repeat split; auto; rewrite Hs; reflexivity. }
  destruct (Hrun w x y type Hcp Hpm Htt Hto opts Hh)
    as (w1 & Hw1 & Hc1 & Hl1 & Hcp1 & Hpm1 & Htt1 & Hto1 & Hrest).
  rewrite Hc in Hrest. destruct Hrest as (Hh1 & Hb1 & Hcs1).
  exists w1. split; [exact Hw1|].
  assert (Hlk : toolOptionsHeap w1 !! r =
                Some (ToolOptions.set_coords (Some (Point.mk x y)) opts)).
  { rewrite Hh1. apply lookup_insert_eq. }
  split; [exact Hlk|]. split; [exact Hc1|]. split; [exact Hl1|].
  split; [exact Hb1|]. split; [congruence|].
  destruct (Hrun w1 x2 y2 type2 Hcp1 Hpm1 Htt1 Hto1 _ Hlk)
    as (w2 & Hw2 & Hc2 & Hl2 & _ & _ & _ & _ & Hrest2).
  cbn [ToolOptions.coords ToolOptions.set_coords] in Hrest2.
  destruct Hrest2 as (Hh2 & Hb2 & Hcs2).
  exists w2. split; [exact Hw2|].
  rewrite Hcs1, Hcs in Hcs2. rewrite Hb1 in Hb2.
  split; [exact Hcs2|]. rewrite Hb2. world_cbn.
  repeat split; congruence.
Qed.

End Clone.

Lemma handlePress_clone_source_then_stroke_witness :
  exists w1 w2,
    handlePress 5 5 "mousedown" cloneWorld = Ok tt w1 /\
    toolOptionsHeap w1 !! 0 =
      Some (ToolOptions.mk 10 (Some (Point.mk 5 5)) "layer_1") /\
    handlePress 20 20 "mousedown" w1 = Ok tt w2 /\
    _cloneStartCoords (sprite w2) = Some (Point.mk 20 20) /\
    Brush.down (_brush (sprite w2)) = true /\
    Brush.pointers (_brush (sprite w2)) = [Point.mk 20 20].
Proof.
  destruct (handlePress_clone_source_then_stroke cloneWorld 0
              (ToolOptions.mk 10 None "layer_1") 5 5 "mousedown" 20 20 "mousedown"
              eq_refl eq_refl eq_refl eq_refl eq_refl eq_refl eq_refl)
    as (w1 & Hw1 & Hh1 & _ & _ & _ & _ & w2 & Hw2 & Hcs & Hd & Hp & _).
  exists w1, w2. split; [exact Hw1|]. split; [exact Hh1|].
  split; [exact Hw2|]. split; [exact Hcs|]. split; [exact Hd|]. exact Hp.
Defined.

Section Bounds.
Context `{Externals}.

(** ** Moving the sprite *)

(** C9 (as the code has it).  [setBounds] hands the base class the current
    size when the width or the height it is given is 0, so a base class
    that stores the size it is handed keeps the size.  Where the base class
    throws, [setBounds] throws with it in the world it was called in: the
    layer is not moved and nothing is enqueued.  Where the base class
    returns, [setBounds] moves the layer by the difference between the new
    and the old left and top of the bounds, and it enqueues exactly one
    position entry: undo puts the layer back where it was and the bounds of
    the sprite registered for the layer back to the old left and top, redo
    does the same with the new values. *)
Theorem setBounds_moves_layer_and_enqueues_position :
  forall (w : World) (x y width height : float),
    let b := _bounds (sprite w) in
    let l := layer w in
    let keep := PrimFloat.eqb width 0 || PrimFloat.eqb height 0 in
    match sprite_setBounds w x y
            (if keep then Bounds.width b else width)
            (if keep then Bounds.height b else height) with
    | inl e => setBounds x y width height w = Throw e w
    | inr b' =>
        let newLayerX := (Layer.x l + (Bounds.left b' - Bounds.left b))%float in
        let newLayerY := (Layer.y l + (Bounds.top b' - Bounds.top b))%float in
        exists w' e,
          setBounds x y width height w = Ok tt w' /\
          _bounds (sprite w') = b' /\
          Layer.x (layer w') = newLayerX /\ Layer.y (layer w') = newLayerY /\
          history w' = history w ++ [(("spritePos_" ++ Layer.id l)%string, e)] /\
          (forall u, let u' := world_of (runAction (undo e) u) in
             Layer.x (layer u') = Layer.x l /\ Layer.y (layer u') = Layer.y l /\
             (registered u = true ->
              Bounds.left (_bounds (sprite u')) = Bounds.left b /\
              Bounds.top (_bounds (sprite u')) = Bounds.top b)) /\
          (forall u, let u' := world_of (runAction (redo e) u) in
             Layer.x (layer u') = newLayerX /\ Layer.y (layer u') = newLayerY /\
             (registered u = true ->
              Bounds.left (_bounds (sprite u')) = Bounds.left b' /\
              Bounds.top (_bounds (sprite u')) = Bounds.top b')) /\
          (PrimFloat.eqb width 0 = true \/ PrimFloat.eqb height 0 = true ->
           (forall u x0 y0 w0 h0 b0,
              sprite_setBounds u x0 y0 w0 h0 = inr b0 ->
              Bounds.width b0 = w0 /\ Bounds.height b0 = h0) ->
           Bounds.width (_bounds (sprite w')) = Bounds.width b /\
           Bounds.height (_bounds (sprite w')) = Bounds.height b)
    end.
Proof.
  intros w x y width height b l keep.
  destruct (sprite_setBounds w x y _ _) as [e|b'] eqn:Hbase.
  - unfold setBounds. js_cbn. fold b keep. rewrite Hbase. reflexivity.
  - intros newLayerX newLayerY.
    unfold setBounds. js_cbn. fold b l keep. rewrite Hbase. js_cbn.
    fold newLayerX newLayerY.
    eexists _, _. split; [reflexivity|]. world_cbn.
    split; [reflexivity|]. split; [reflexivity|]. split; [reflexivity|].
    split; [reflexivity|]. cbn [undo redo]. split; [|split].
    + intros u. unfold runAction, positionSpriteFromHistory. js_cbn.
      destruct (registered u); js_cbn; repeat split; try discriminate; reflexivity.
    + intros u. unfold runAction, positionSpriteFromHistory. js_cbn.
      destruct (registered u); js_cbn; repeat split; try discriminate; reflexivity.
    + intros Hz Hstores. assert (Hk : keep = true).
      { unfold keep. destruct Hz as [-> | ->]; [reflexivity|apply orb_true_r]. }
      rewrite Hk in Hbase. exact (Hstores _ _ _ _ _ _ Hbase).
Qed.

End Bounds.

Lemma setBounds_moves_layer_and_enqueues_position_witness :
  exists w',
    setBounds 30 40 0 0 demoWorld = Ok tt w' /\
    _bounds (sprite w') = Bounds.mk 30 40 100 80 /\
    Layer.x (layer w') = 30%float /\ Layer.y (layer w') = 40%float /\
    length (history w') = 1.
Proof.
  pose proof (setBounds_moves_layer_and_enqueues_position demoWorld 30 40 0 0)
    as Hs.
  cbv zeta in Hs.
  change (sprite_setBounds demoWorld 30 40
            (if PrimFloat.eqb 0 0 || PrimFloat.eqb 0 0
             then Bounds.width (_bounds (sprite demoWorld)) else 0%float)
            (if PrimFloat.eqb 0 0 || PrimFloat.eqb 0 0
             then Bounds.height (_bounds (sprite demoWorld)) else 0%float))
    with (@inr Exn Bounds.t (Bounds.mk 30 40 100 80)) in Hs.
  destruct Hs as (w' & e & Hw & Hb & Hx & Hy & Hh & _).
  exists w'. split; [exact Hw|]. split; [exact Hb|].
  split; [exact Hx|]. split; [exact Hy|]. rewrite Hh. reflexivity.
Defined.

(** Against C9 as stated: the sprite is on no canvas, the base class
    refuses to move it, and [setBounds] throws in the world it was called
    in; the layer has not moved and no entry is enqueued. *)
Lemma setBounds_base_throws_counterexample :
  exists e,
    setBounds 30 40 0 0 offCanvasWorld = Throw e offCanvasWorld /\
    history offCanvasWorld = [] /\
    Layer.x (layer offCanvasWorld) = 0%float.
Proof. eexists. vm_compute. repeat split. Qed.

(** ** Strokes: what is recorded between press and release *)

Ltac stroke_keep :=
  intros; open_reads; unfold strokeInv in *; split_ands; subst; world_cbn;
  repeat split; congruence.

Ltac stroke_no :=
  unfold strokeInv in *; split_ands; subst;
  repeat match goal with
         | Hx : _isPaintMode (sprite ?w) = true,
           E : context [_isPaintMode (sprite ?w)] |- _ =>
             rewrite Hx in E; cbn in E
         end;
  congruence.

Section Stroke.
Context `{Externals}.

Lemma paint_strokeInv w0 ps : preserves (strokeInv w0 ps) paint.
Proof. hsteps stroke_keep stroke_no. Qed.

Lemma update_strokeInv w0 ps : preserves (strokeInv w0 ps) update.
Proof. hsteps_with stroke_keep stroke_no ltac:(apply paint_strokeInv). Qed.

Lemma handleMove_strokeInv w0 ps x y type :
  hoare (strokeInv w0 ps) (handleMove x y type)
    (fun _ => strokeInv w0 (ps ++ [Point.mk x y])) (fun _ => False).
Proof. unfold handleMove. hsteps stroke_keep stroke_no. Qed.

Lemma fireTimer_strokeInv w0 ps t : preserves (strokeInv w0 ps) (fireTimer t).
Proof. hsteps stroke_keep stroke_no. Qed.

Lemma resolveJob_strokeInv w0 ps i r : preserves (strokeInv w0 ps) (resolveJob i r).
Proof. hsteps stroke_keep stroke_no. Qed.

End Stroke.

(** ** The final render of a stroke *)

Lemma brushRenders_snoc cs c :
  brushRenders (cs ++ [c]) = brushRenders cs ++ from_option (fun r => [r]) [] (renderOf c).
Proof.
  unfold brushRenders. rewrite omap_app. cbn. destruct (renderOf c); reflexivity.
Qed.

Lemma commits_snoc js j :
  commits (js ++ [j]) = commits js ++ from_option (fun r => [r]) [] (commitOf j).
Proof.
  unfold commits. rewrite omap_app. cbn. destruct (commitOf j); reflexivity.
Qed.

Ltac log_cbn :=
  rewrite ?brushRenders_snoc, ?commits_snoc;
  cbn [renderOf commitOf from_option]; rewrite ?app_nil_r.

Ltac paint_keep :=
  intros; open_reads; unfold paintRel in *; split_ands; subst; world_cbn;
  log_cbn; repeat split; congruence.

Ltac paint_no :=
  unfold paintRel, targetSurface in *; split_ands; subst;
  repeat match goal with
         | Hx : layer ?w = layer _, E : context [layer ?w] |- _ =>
             rewrite Hx in E
         | Hx : _toolType (sprite ?w) = _toolType _,
           E : context [_toolType (sprite ?w)] |- _ => rewrite Hx in E
         | Hx : _brush (sprite ?w) = _, E : context [_brush (sprite ?w)] |- _ =>
             rewrite Hx in E
         end;
  try congruence;
  match goal with
  | Ht : isBrushTool ?t = true, E : isTool _ ?t = true |- _ =>
      destruct t as [[]|]; discriminate
  end.

Section Release.
Context `{Externals}.

Lemma paint_release (w1 : World) (s : Surface.t) :
  Brush.down (_brush (sprite w1)) = false ->
  isBrushTool (_toolType (sprite w1)) = true ->
  getContext (targetSurface w1) = Some s ->
  let b := Brush.set_pointers
             (rotatePointerLists (Brush.pointers (_brush (sprite w1))) (layer w1)
                (Surface.width s) (Surface.height s))
             (_brush (sprite w1)) in
  hoare (eq w1) paint
    (fun _ => paintRel w1 b (brushRenders (calls w1) ++ [(targetCtx w1, b, None)]))
    (fun _ => False).
Proof.
  intros Hup Htool Hlive b. unfold paint.
  apply (hoare_prelude _ _ _ _
           (fun _ => paintRel w1 (_brush (sprite w1)) (brushRenders (calls w1)))).
  { intros w <-. unfold preparePendingPaintState, debouncePaintStore. js_cbn.
    destruct (_pendingPaintState (sprite w1)) eqn:Hp; js_cbn;
      unfold paintRel; world_cbn; log_cbn; rewrite Hp; repeat split; reflexivity. }
  intros _.
  repeat (lazymatch goal with
          | |- hoare _ (bind (if isTool FILL _ then _ else _) _) _ _ => fail
          | |- _ => idtac
          end; hnext paint_keep paint_no).
  hflats paint_keep paint_no.
  assert (Hl : a0 = layer w1 /\ a9 = layer w1 /\ a1 = isMaskable w1).
  { open_reads. unfold paintRel in *. split_ands. subst.
    repeat split; try congruence. unfold isMaskable.
    match goal with Hx : layer ?w = layer w1 |- context [layer ?w] =>
      rewrite Hx end. reflexivity. }
  destruct Hl as (-> & -> & ->).
  assert (Hs : t = s).
  { unfold targetSurface in Hlive. congruence. }
  subst t.
  apply (hoare_bind_modify _ (paintRel w1 b (brushRenders (calls w1)))).
  { intros w Hw. unfold paintRel in *. split_ands. world_cbn.
    repeat split; try assumption. subst b. congruence. }
  hflats paint_keep paint_no.
  apply (hoare_bind_modify _
           (paintRel w1 b (brushRenders (calls w1) ++ [(targetCtx w1, b, None)]))).
  { intros w Hw. open_reads. unfold paintRel in *. split_ands. world_cbn.
    log_cbn. repeat split; try assumption. unfold targetCtx. congruence. }
  hflats paint_keep paint_no.
Qed.

End Release.

Ltac release_keep :=
  intros; open_reads; unfold releaseRel in *; cbv zeta in *; split_ands; subst;
  world_cbn; log_cbn; repeat split; congruence.

Lemma hoare_pin {B} (w : World) (g : World -> World) (k : unit -> M B) Q E :
  hoare (eq (g w)) (k tt) Q E -> hoare (eq w) (bind (modify g) k) Q E.
Proof.
  intros Hk. apply (hoare_bind_modify _ (eq (g w))); [intros ? <-; reflexivity|exact Hk].
Qed.

(** Straight-line code run from one known world. *)
Ltac hpin :=
  lazymatch goal with
  | |- hoare (eq _) (bind (bind _ _) _) _ _ => apply hoare_bind_assoc
  | |- hoare (eq _) (bind (modify _) _) _ _ => apply hoare_pin; cbv beta; world_cbn
  | |- hoare (eq _) (bind (upd _) _) _ _ => unfold upd at 1
  | |- hoare (eq _) (bind (updLayer _) _) _ _ => unfold updLayer at 1
  | |- hoare (eq _) (bind (call _) _) _ _ => unfold call at 1
  | |- hoare (eq _) (bind (defer _) _) _ _ => unfold defer at 1
  end.

Section ReleaseHandler.
Context `{Externals}.

Lemma storePaintState_commits (w1 : World) b rs :
  Brush.down b = false ->
  hoare (releaseRel w1 b rs false) storePaintState
    (fun _ => releaseRel w1 b rs true) (fun _ => False).
Proof.
  intros Hb w Hw. unfold releaseRel in *. cbv zeta in *.
  destruct Hw as (Hbr & Hrs & Hl & Hc & Hh & Htt & Hpm & Hn & Hp & Ht & Hj & Ho).
  unfold storePaintState. js_cbn. rewrite Hp. js_cbn. rewrite Hbr, Hb. js_cbn.
  log_cbn. rewrite Ht, Hj, Ho. repeat split; assumption.
Qed.

Lemma handleRelease_stroke (w1 : World) (s : Surface.t) (c : Canvas.t) (x y : float) :
  Brush.down (_brush (sprite w1)) = true ->
  isBrushTool (_toolType (sprite w1)) = true ->
  getContext (targetSurface w1) = Some s ->
  canvas w1 = Some c ->
  let b1 := Brush.set_last 0 (Brush.set_down false (_brush (sprite w1))) in
  let b := Brush.set_pointers
             (rotatePointerLists (Brush.pointers b1) (layer w1)
                (Surface.width s) (Surface.height s)) b1 in
  exists w2,
    handleRelease x y w1 = Ok tt w2 /\
    releaseRel w1 (Brush.set_pointers [] b)
      (brushRenders (calls w1) ++ [(targetCtx w1, b, None)])
      (negb (Canvas.lowMemory c)) w2.
Proof.
  intros Hdown Htool Hlive Hcvs b1 b.
  assert (Hh : hoare (eq w1) (handleRelease x y)
                 (fun _ => releaseRel w1 (Brush.set_pointers [] b)
                    (brushRenders (calls w1) ++ [(targetCtx w1, b, None)])
                    (negb (Canvas.lowMemory c)))
                 (fun _ => False)).
  { unfold handleRelease. unfold this at 1. apply hoare_bind_gets. intros a Ha.
    destruct Ha as (? & <- & <-). rewrite Hdown. unfold when at 1.
    repeat hpin.
    match goal with |- hoare (eq ?w) _ _ _ => set (wp := w) end.
    apply (hoare_bind _ _ _
             (fun _ => paintRel wp b
                (brushRenders (calls wp) ++ [(targetCtx wp, b, None)]))).
    { apply (paint_release wp s); subst wp; world_cbn; auto. }
    intros _.
    apply hoare_bind_assoc. unfold upd at 1.
    apply (hoare_bind_modify _
             (releaseRel w1 (Brush.set_pointers [] b)
                (brushRenders (calls w1) ++ [(targetCtx w1, b, None)]) false)).
    { intros w Hw. unfold paintRel, releaseRel in *. cbv zeta. split_ands.
      subst wp. world_cbn. log_cbn.
      repeat split; try assumption; try congruence.
      match goal with Hx : brushRenders (calls w) = _ |- _ => rewrite Hx end.
      log_cbn. reflexivity. }
    apply hoare_bind_assoc. apply hoare_bind_gets. intros cv Hcv.
    assert (cv = Some c) as ->.
    { destruct Hcv as (w & Hw & <-). unfold releaseRel in Hw. cbv zeta in Hw.
      split_ands. congruence. }
    clear Hcv. apply hoare_bind_assoc. unfold deref at 1. apply hoare_bind_ret.
    destruct (Canvas.lowMemory c); cbn [negb]; unfold when at 1.
    - apply hoare_bind_ret. hsteps release_keep idtac.
    - apply hoare_bind_assoc.
      apply (hoare_bind _ _ _
               (fun _ => releaseRel w1 (Brush.set_pointers [] b)
                  (brushRenders (calls w1) ++ [(targetCtx w1, b, None)]) true)).
      { apply storePaintState_commits. reflexivity. }
      intros _. apply hoare_bind_ret. hsteps release_keep idtac. }
  destruct (hoare_ok _ _ _ w1 Hh eq_refl) as ([] & w2 & Hw2 & Hrel).
  exists w2. split; assumption.
Qed.

End ReleaseHandler.

Section StrokeRun.
Context `{Externals}.

Lemma step_strokeInv w0 ps e :
  duringStroke e = true ->
  forall w, strokeInv w0 ps w ->
    strokeInv w0 (ps ++ movedPoints [e]) (world_of (step e w)).
Proof.
  intros He w Hw. destruct e; try discriminate He; cbn [step movedPoints omap movedPoint list_omap].
  - pose proof (handleMove_strokeInv w0 ps x y type w Hw) as Hm.
    destruct (handleMove x y type w); [exact Hm|contradiction].
  - rewrite app_nil_r. apply (preserves_world_of _ _ _ (update_strokeInv w0 ps) Hw).
  - rewrite app_nil_r. apply (preserves_world_of _ _ _ (fireTimer_strokeInv w0 ps t) Hw).
  - rewrite app_nil_r. apply (preserves_world_of _ _ _ (resolveJob_strokeInv w0 ps i r) Hw).
Qed.

Lemma movedPoints_cons e evs :
  movedPoints (e :: evs) = movedPoints [e] ++ movedPoints evs.
Proof. unfold movedPoints. cbn. destruct (movedPoint e); reflexivity. Qed.

Lemma run_strokeInv w0 evs :
  forallb duringStroke evs = true ->
  forall ps w, strokeInv w0 ps w ->
    strokeInv w0 (ps ++ movedPoints evs) (run evs w).
Proof.
  induction evs as [|e evs IH]; intros Hall ps w Hw.
  - cbn. rewrite app_nil_r. exact Hw.
  - cbn in Hall. apply andb_true_iff in Hall as [He Hall].
    rewrite movedPoints_cons, app_assoc. cbn [run fold_left].
    apply (IH Hall). apply step_strokeInv; assumption.
Qed.

Lemma handlePress_starts_stroke (w0 : World) x y type :
  _isColorPicker (sprite w0) = false ->
  _isPaintMode (sprite w0) = true ->
  isBrushTool (_toolType (sprite w0)) = true ->
  exists w1,
    handlePress x y type w0 = Ok tt w1 /\
    strokeInv w0 (Brush.pointers (_brush (sprite w0)) ++ [Point.mk x y]) w1 /\
    _pendingPaintState (sprite w1) = _pendingPaintState (sprite w0) /\
    _orgSourceToStore (sprite w1) = _orgSourceToStore (sprite w0) /\
    timers w1 = timers w0 /\ nextTimer w1 = nextTimer w0 /\
    jobs w1 = jobs w0 /\ history w1 = history w0 /\ calls w1 = calls w0.
Proof.
  intros Hcp Hpm Htool. unfold handlePress, storeBrushPointer. js_cbn.
  destruct (String.prefix "touch" type); js_cbn; rewrite Hcp, Hpm;
    destruct (_toolType (sprite w0)) as [[]|] eqn:Ht; try discriminate Htool;
    cbn [isTool]; js_cbn; (eexists; split; [reflexivity|]);
    unfold strokeInv; world_cbn; rewrite ?Ht; repeat split; auto.
Qed.

(** ** Release renders the whole stroke *)

(** C1. Of a brush or eraser stroke, the points recorded at the press and at
    every move since are all in the brush when the release comes, in the
    order they came, whatever frames, timers and encodings ran in between.
    The release hands [renderBrushStroke] that whole list, every point
    transformed in place, with the cursor [last] back at 0, on the layer
    itself and without preview overrides, exactly once; the list is empty
    only in the world after that render. *)
Theorem release_renders_every_recorded_point :
  forall (w0 : World) (s : Surface.t) (c : Canvas.t)
         (x y : float) (type : string) (evs : list Event) (x' y' : float),
    _isColorPicker (sprite w0) = false ->
    _isPaintMode (sprite w0) = true ->
    isBrushTool (_toolType (sprite w0)) = true ->
    getContext (targetSurface w0) = Some s ->
    canvas w0 = Some c ->
    forallb duringStroke evs = true ->
    let w1 := run (Press x y type :: evs) w0 in
    let full := Brush.pointers (_brush (sprite w0)) ++
                Point.mk x y :: movedPoints evs in
    Brush.down (_brush (sprite w1)) = true /\
    Brush.pointers (_brush (sprite w1)) = full /\
    exists w2 b,
      handleRelease x' y' w1 = Ok tt w2 /\
      brushRenders (calls w2) =
        brushRenders (calls w1) ++ [(targetCtx w0, b, None)] /\
      Brush.pointers b =
        rotatePointerLists full (layer w0) (Surface.width s) (Surface.height s) /\
      length (Brush.pointers b) = length full /\
      Brush.last b = 0 /\ Brush.down b = false /\
      Brush.pointers (_brush (sprite w2)) = [].
Proof.
  intros w0 s c x y type evs x' y' Hcp Hpm Htool Hlive Hcvs Hall w1 full.
  destruct (handlePress_starts_stroke w0 x y type Hcp Hpm Htool)
    as (wp & Hpress & Hstroke & _).
  assert (Hw1 : strokeInv w0 full w1).
  { subst w1 full. cbn [run fold_left step]. rewrite Hpress. cbn [world_of].
    replace (Brush.pointers (_brush (sprite w0)) ++ Point.mk x y :: movedPoints evs)
      with ((Brush.pointers (_brush (sprite w0)) ++ [Point.mk x y]) ++ movedPoints evs)
      by (rewrite <- app_assoc; reflexivity).
    apply run_strokeInv; assumption. }
  destruct Hw1 as (Hd & Hps & Hpm1 & Htt & Hl & Hc).
  split; [exact Hd|]. split; [exact Hps|].
  destruct (handleRelease_stroke w1 s c x' y' Hd) as (w2 & Hrel & Hr).
  { rewrite Htt. exact Htool. }
  { unfold targetSurface in *. rewrite Hl. exact Hlive. }
  { rewrite Hc. exact Hcvs. }
  unfold releaseRel in Hr. cbv zeta in Hr.
  destruct Hr as (Hb & Hrs & _).
  eexists w2, _. split; [exact Hrel|]. split.
  { rewrite Hrs. unfold targetCtx, isMaskable. rewrite Hl. reflexivity. }
  world_cbn. rewrite Hb, Hps, Hl. world_cbn.
  split; [reflexivity|]. split; [apply rotatePointerLists_length|].
  repeat split.
Qed.

End StrokeRun.

Lemma release_renders_every_recorded_point_witness :
  let w1 := run (Press 10 10 "mousedown" :: demoStroke) demoWorld in
  Brush.pointers (_brush (sprite w1)) =
    [Point.mk 10 10; Point.mk 12 10; Point.mk 14 11] /\
  exists w2 b,
    handleRelease 14 11 w1 = Ok tt w2 /\
    brushRenders (calls w2) = brushRenders (calls w1) ++ [(CtxSource, b, None)] /\
    length (Brush.pointers b) = 3 /\ Brush.last b = 0 /\
    Brush.pointers (_brush (sprite w2)) = [].
Proof.
  destruct (release_renders_every_recorded_point demoWorld demoSurface
              (Canvas.mk "rgba(255,0,0,1)" false) 10 10 "mousedown" demoStroke
              14 11 eq_refl eq_refl eq_refl eq_refl eq_refl eq_refl)
    as (_ & Hps & w2 & b & Hrel & Hrs & _ & Hlen & Hlast & _ & Hnil).
  split; [exact Hps|]. exists w2, b. split; [exact Hrel|]. split; [exact Hrs|].
  split; [exact Hlen|]. split; [exact Hlast|exact Hnil].
Defined.

(** ** When the commit is made *)

Lemma releaseRel_cycleInv w1 b rs committed w :
  cycleInv w1 -> releaseRel w1 b rs committed w -> cycleInv w.
Proof.
  unfold cycleInv, releaseRel. cbv zeta. intros Hc Hr. split_ands.
  destruct (_pendingPaintState (sprite w1)) as [t|]; cbn [default from_option id] in *.
  - destruct Hc as [d Hd]. destruct committed; split_ands.
    + replace (_pendingPaintState (sprite w)) with (@None positive) by congruence.
      replace (timers w) with (delete t (timers w1)) by congruence.
      rewrite Hd. apply delete_singleton_eq.
    + replace (_pendingPaintState (sprite w)) with (Some t) by congruence.
      exists d. congruence.
  - destruct committed; split_ands.
    + replace (_pendingPaintState (sprite w)) with (@None positive) by congruence.
      replace (timers w) with (delete (nextTimer w1) (<[nextTimer w1:=5000%N]> (timers w1)))
        by congruence.
      rewrite Hc. rewrite insert_empty. apply delete_singleton_eq.
    + replace (_pendingPaintState (sprite w)) with (Some (nextTimer w1)) by congruence.
      exists 5000%N. rewrite <- insert_empty. congruence.
Qed.

Section Commit.
Context `{Externals}.

(** C3 (as the code has it).  The release of a brush stroke runs
    [storePaintState] at once when the reduced-memory preference is off: the
    pending cycle is closed, its timeout is cleared and the encoding of the
    result starts before [handleRelease] returns.  With the preference on,
    the release leaves the cycle pending and its timeout live: the commit
    waits for the timer.  Either way the history entry itself is enqueued
    only when the encoding is done. *)
Theorem release_commits_at_once_unless_lowMemory :
  forall (w1 : World) (s : Surface.t) (c : Canvas.t) (x y : float),
    Brush.down (_brush (sprite w1)) = true ->
    isBrushTool (_toolType (sprite w1)) = true ->
    getContext (targetSurface w1) = Some s ->
    canvas w1 = Some c ->
    cycleInv w1 ->
    exists w2,
      handleRelease x y w1 = Ok tt w2 /\
      cycleInv w2 /\ history w2 = history w1 /\
      if Canvas.lowMemory c then
        (exists t d, _pendingPaintState (sprite w2) = Some t /\
                     timers w2 = {[t := d]}) /\
        commits (jobs w2) = commits (jobs w1)
      else
        _pendingPaintState (sprite w2) = None /\ timers w2 = ∅ /\
        commits (jobs w2) = commits (jobs w1) ++ [_orgSourceToStore (sprite w1)].
Proof.
  intros w1 s c x y Hd Htool Hlive Hcvs Hcyc.
  destruct (handleRelease_stroke w1 s c x y Hd Htool Hlive Hcvs) as (w2 & Hrel & Hr).
  pose proof (releaseRel_cycleInv _ _ _ _ _ Hcyc Hr) as Hcyc2.
  exists w2. split; [exact Hrel|]. split; [exact Hcyc2|].
  unfold releaseRel in Hr. cbv zeta in Hr.
  destruct Hr as (_ & _ & _ & _ & Hh & _ & _ & _ & Hrest).
  split; [exact Hh|].
  unfold cycleInv in Hcyc2.
  destruct (Canvas.lowMemory c); cbn [negb] in Hrest;
    destruct Hrest as (Hp & Ht & Hj & Ho); rewrite Hp in Hcyc2.
  - split; [|exact Hj]. destruct Hcyc2 as [d Hd2]. eauto.
  - auto.
Qed.

End Commit.

Lemma release_commits_at_once_unless_lowMemory_witness :
  let w1 := run (Press 10 10 "mousedown" :: demoStroke) demoWorld in
  exists w2,
    handleRelease 14 11 w1 = Ok tt w2 /\
    _pendingPaintState (sprite w2) = None /\ timers w2 = ∅ /\
    commits (jobs w2) = commits (jobs w1) ++ [_orgSourceToStore (sprite w1)].
Proof.
  destruct (release_commits_at_once_unless_lowMemory
              (run (Press 10 10 "mousedown" :: demoStroke) demoWorld) demoSurface
              (Canvas.mk "rgba(255,0,0,1)" false) 14 11)
    as (w2 & Hrel & _ & _ & Hp & Ht & Hj).
  { vm_compute. reflexivity. }
  { vm_compute. reflexivity. }
  { vm_compute. reflexivity. }
  { vm_compute. reflexivity. }
  { vm_compute. exists 1000%N. reflexivity. }
  exists w2. split; [exact Hrel|]. split; [exact Hp|]. split; [exact Ht|exact Hj].
Defined.

(** Against C3 as stated: with the reduced-memory preference on, the release
    of a stroke commits nothing and leaves the timer running; with the
    preference off, the release does not wait for the timer. *)
Lemma release_commit_lowMemory_counterexample :
  (exists c w2,
     canvas lowMemoryWorld = Some c /\ Canvas.lowMemory c = true /\
     handleRelease 14 11 (run (Press 10 10 "mousedown" :: demoStroke) lowMemoryWorld)
       = Ok tt w2 /\
     _pendingPaintState (sprite w2) = Some 2%positive /\
     timers w2 !! 2%positive = Some 1000%N /\
     commits (jobs w2) = [] /\ history w2 = []) /\
  (exists c w2,
     canvas demoWorld = Some c /\ Canvas.lowMemory c = false /\
     handleRelease 14 11 (run (Press 10 10 "mousedown" :: demoStroke) demoWorld)
       = Ok tt w2 /\
     _pendingPaintState (sprite w2) = None /\ timers w2 = ∅ /\
     commits (jobs w2) = [Some "blob:original"%string]).
Proof.
  split.
  - eexists _, _. split; [reflexivity|]. split; [reflexivity|].
    split; [vm_compute; reflexivity|]. repeat split; vm_compute; reflexivity.
  - eexists _, _. split; [reflexivity|]. split; [reflexivity|].
    split; [vm_compute; reflexivity|]. repeat split; vm_compute; reflexivity.
Qed.

(** ** One snapshot cycle at a time *)

Lemma commits_remove js i j :
  js !! i = Some j -> commitOf j = None ->
  commits (take i js ++ drop (S i) js) = commits js.
Proof.
  intros Hi Hj. apply take_drop_middle in Hi. rewrite <- Hi at 3.
  unfold commits. rewrite !omap_app. cbn. rewrite Hj. reflexivity.
Qed.

Ltac pending_keep :=
  intros; open_reads; unfold pendingInv in *; split_ands; subst; world_cbn;
  log_cbn; repeat split; try congruence; try assumption.

Ltac pending_no := unfold pendingInv in *; split_ands; subst; congruence.

Section Cycle.
Context `{Externals}.

Lemma paint_pendingInv w0 t :
  _pendingPaintState (sprite w0) = Some t -> preserves (pendingInv w0) paint.
Proof. intros Hp. hsteps pending_keep pending_no. Qed.

Lemma run_app evs1 evs2 w : run (evs1 ++ evs2) w = run evs2 (run evs1 w).
Proof. unfold run. apply fold_left_app. Qed.

End Cycle.

Lemma forallb_take {A} (f : A -> bool) (l : list A) k :
  forallb f l = true -> forallb f (take k l) = true.
Proof.
  revert k. induction l as [|a l IH]; intros [|k] Hl; try reflexivity.
  cbn in *. apply andb_true_iff in Hl as [Ha Hl]. rewrite Ha. cbn. apply IH, Hl.
Qed.

(** ** The ledger of paint entries *)

Ltac ledger_open := unfold pendingSt, ledgerSt, releasedSt, cycleInv in *.

Ltac ledger_keep :=
  intros; open_reads; ledger_open; split_ands; subst; world_cbn; log_cbn;
  repeat split; try congruence; try assumption.

Ltac ledger_no :=
  ledger_open; split_ands; subst;
  repeat match goal with
         | Hx : _isPaintMode (sprite ?w) = true,
           E : context [_isPaintMode (sprite ?w)] |- _ =>
             rewrite Hx in E; cbn in E
         | Hx : Brush.down (_brush (sprite ?w)) = _,
           E : context [Brush.down (_brush (sprite ?w))] |- _ =>
             rewrite Hx in E; cbn in E
         end;
  congruence.

Lemma commits_remove_commit js i o :
  js !! i = Some (JobEnqueuePaint o) ->
  S (length (commits (take i js ++ drop (S i) js))) = length (commits js).
Proof.
  intros Hi. apply take_drop_middle in Hi. rewrite <- Hi at 3.
  unfold commits. rewrite !omap_app. cbn. rewrite !length_app. cbn. lia.
Qed.

Lemma commits_last_lookup js rest o :
  commits js = rest ++ [o] ->
  exists i, js !! i = Some (JobEnqueuePaint o) /\
            commits (take i js ++ drop (S i) js) = rest.
Proof.
  revert rest. induction js as [|j js IH]; intros rest Hc.
  - destruct rest; discriminate Hc.
  - unfold commits in Hc. cbn in Hc.
    destruct (commitOf j) as [o'|] eqn:Hj.
    + destruct j; try discriminate Hj. cbn in Hj. injection Hj as ->.
      destruct rest as [|o1 rest].
      * injection Hc as -> Hc. exists 0. split; [reflexivity|].
        cbn. rewrite drop_0. exact Hc.
      * injection Hc as -> Hc. destruct (IH rest Hc) as (i & Hi & Hrest).
        exists (S i). split; [exact Hi|].
        cbn [take drop app]. unfold commits in *. cbn. rewrite Hrest.
        reflexivity.
    + destruct (IH rest Hc) as (i & Hi & Hrest). exists (S i).
      split; [exact Hi|].
      cbn [take drop app]. unfold commits in *. cbn. rewrite Hj. exact Hrest.
Qed.

Section Ledger.
Context `{Externals}.

Lemma paint_pendingSt w0 down h cs :
  hoare (ledgerSt w0 down h cs) paint
    (fun _ => pendingSt w0 down h cs) (pendingSt w0 down h cs).
Proof.
  unfold paint.
  apply (hoare_prelude _ _ _ _ (fun _ => pendingSt w0 down h cs)).
  { intros w Hw. unfold preparePendingPaintState, debouncePaintStore. js_cbn.
    destruct (_pendingPaintState (sprite w)) eqn:Hp; js_cbn.
    - split; [exact Hw|]. rewrite Hp. discriminate.
    - ledger_open. rewrite Hp in Hw. split_ands. world_cbn. log_cbn.
      repeat split; try assumption; try discriminate.
      exists 5000%N. match goal with Hx : timers w = ∅ |- _ => rewrite Hx end.
      apply insert_empty. }
  intros _. destruct down as [d|]; hsteps ledger_keep ledger_no.
Qed.

Lemma paint_ledgerSt w0 down h cs : preserves (ledgerSt w0 down h cs) paint.
Proof.
  eapply hoare_conseq; [apply (paint_pendingSt w0 down h cs)|..];
    unfold pendingSt; intuition.
Qed.

Lemma update_ledgerSt w0 down h cs : preserves (ledgerSt w0 down h cs) update.
Proof.
  destruct down as [d|];
    hsteps_with ledger_keep ledger_no ltac:(apply paint_ledgerSt).
Qed.

Lemma handleMove_ledgerSt w0 h cs x y type :
  preserves (ledgerSt w0 (Some true) h cs) (handleMove x y type).
Proof. unfold handleMove. hsteps ledger_keep ledger_no. Qed.

Lemma handlePress_ledgerSt w0 h cs x y type :
  preserves (ledgerSt w0 None h cs) (handlePress x y type).
Proof.
  unfold handlePress.
  hsteps_with ledger_keep ledger_no ltac:(apply paint_ledgerSt).
Qed.

Lemma fireTimer_ledgerSt w0 h cs t :
  preserves (ledgerSt w0 (Some true) h cs) (fireTimer t).
Proof.
  intros w Hw. unfold fireTimer, storePaintState, debouncePaintStore. js_cbn.
  destruct (timers w !! t) as [d|] eqn:Ht; js_cbn; [|exact Hw].
  ledger_open. destruct Hw as (Hd & Hpm & Hl & Hcyc & Hh & Hj).
  destruct (_pendingPaintState (sprite w)) as [p|] eqn:Hp; js_cbn.
  - rewrite Hd. js_cbn.
    repeat split; try assumption.
    exists 1000%N. destruct Hcyc as [d' Hd']. rewrite Hd'.
    rewrite Hd' in Ht. apply lookup_singleton_Some in Ht as [-> _].
    rewrite !delete_singleton_eq. rewrite delete_empty. apply insert_empty.
  - rewrite Hcyc in Ht. rewrite lookup_empty in Ht. discriminate Ht.
Qed.

(** A reaction runs: either the ledger is as it was, or a commit that was
    under way has become an entry. *)
Lemma resolveJob_ledgerSt w0 down h cs i r w :
  ledgerSt w0 down h cs w ->
  exists h' cs',
    ledgerSt w0 down h' cs' (world_of (resolveJob i r w)) /\
    (h' = h /\ cs' = cs \/
     exists e, h' = h ++ [e] /\ S (length cs') = length cs).
Proof.
  intros Hw. unfold resolveJob. js_cbn.
  destruct (jobs w !! i) as [j|] eqn:Hj; js_cbn;
    [|exists h, cs; split; [exact Hw|left; split; reflexivity]].
  destruct Hw as (Hd & Hpm & Hl & Hcyc & Hh & Hc).
  destruct (commitOf j) as [o|] eqn:Hcj.
  - destruct j; try discriminate Hcj. cbn in Hcj. injection Hcj as ->.
    unfold runJob. js_cbn.
    eexists _, _. split.
    + unfold ledgerSt, cycleInv in *. world_cbn.
      repeat split; try assumption; reflexivity.
    + right. eexists. split; [rewrite Hh; reflexivity|].
      rewrite <- Hc. apply (commits_remove_commit _ _ _ Hj).
  - exists h, cs. split; [|left; split; reflexivity].
    pose proof (commits_remove _ _ _ Hj Hcj) as Hrm.
    destruct j; try discriminate Hcj;
      unfold runJob, resetFilterAndRecache, cacheEffects; js_cbn;
      try destruct (registered w); js_cbn;
      try destruct (_rafFx (sprite w)); js_cbn;
      unfold ledgerSt, cycleInv in *; world_cbn; log_cbn;
      rewrite Hrm; repeat split; assumption.
Qed.

Lemma step_ledgerSt w0 h cs e w :
  duringStroke e = true ->
  ledgerSt w0 (Some true) h cs w ->
  exists h' cs',
    ledgerSt w0 (Some true) h' cs' (world_of (step e w)) /\
    (h' = h /\ cs' = cs \/
     exists e', h' = h ++ [e'] /\ S (length cs') = length cs).
Proof.
  intros He Hw. destruct e; try discriminate He; cbn [step].
  - exists h, cs. split; [|left; split; reflexivity].
    apply (preserves_world_of _ _ _ (handleMove_ledgerSt w0 h cs x y type) Hw).
  - exists h, cs. split; [|left; split; reflexivity].
    apply (preserves_world_of _ _ _ (update_ledgerSt w0 _ h cs) Hw).
  - exists h, cs. split; [|left; split; reflexivity].
    apply (preserves_world_of _ _ _ (fireTimer_ledgerSt w0 h cs t) Hw).
  - apply resolveJob_ledgerSt. exact Hw.
Qed.

Lemma run_ledgerSt w0 evs :
  forallb duringStroke evs = true ->
  forall h cs w,
    ledgerSt w0 (Some true) h cs w ->
    exists hs cs',
      ledgerSt w0 (Some true) (h ++ hs) cs' (run evs w) /\
      length hs + length cs' = length cs.
Proof.
  induction evs as [|e evs IH]; intros Hall h cs w Hw.
  - exists [], cs. rewrite app_nil_r. split; [exact Hw|reflexivity].
  - cbn in Hall. apply andb_true_iff in Hall as [He Hall].
    cbn [run fold_left].
    destruct (step_ledgerSt w0 h cs e w He Hw) as (h' & cs' & Hw' & Hstep).
    destruct (IH Hall h' cs' _ Hw') as (hs & cs'' & Hrun & Hlen).
    destruct Hstep as [[-> ->]|(e' & -> & Hcs)].
    + exists hs, cs''. split; [exact Hrun|exact Hlen].
    + exists (e' :: hs), cs''. split.
      * rewrite <- app_assoc in Hrun. exact Hrun.
      * cbn. lia.
Qed.

Lemma storePaintState_releasedSt w0 h cs :
  hoare (fun w => pendingSt w0 (Some false) h cs w)
    storePaintState (fun _ => releasedSt w0 h cs) (fun _ => False).
Proof.
  intros w ((Hd & Hpm & Hl & Hcyc & Hh & Hc) & Hp).
  unfold storePaintState. js_cbn.
  destruct (_pendingPaintState (sprite w)) as [t|] eqn:Ht; [|contradiction].
  js_cbn. rewrite Hd. js_cbn.
  unfold releasedSt, cycleInv in *. world_cbn. log_cbn. rewrite Ht in Hcyc.
  destruct Hcyc as [d Hd']. rewrite Hd', delete_singleton_eq.
  repeat split; try assumption. eexists. rewrite Hc. reflexivity.
Qed.

Lemma pendingSt_releasedSt w0 h cs w :
  pendingSt w0 (Some false) h cs w -> releasedSt w0 h cs w.
Proof.
  intros ((Hd & Hpm & Hl & Hcyc & Hh & Hc) & Hp).
  unfold releasedSt. repeat split; try assumption.
  destruct (_pendingPaintState (sprite w)); [exact Hc|contradiction].
Qed.

Lemma handleRelease_releasedSt w0 h cs x y :
  hoare (ledgerSt w0 (Some true) h cs) (handleRelease x y)
    (fun _ => releasedSt w0 h cs) (releasedSt w0 h cs).
Proof.
  unfold handleRelease. unfold this at 1. apply hoare_bind_gets. intros a Ha.
  assert (Hdn : Brush.down a = true).
  { destruct Ha as (u & Hu & <-). apply Hu. }
  rewrite Hdn. clear a Ha Hdn. unfold when at 1.
  apply hoare_bind_assoc. unfold call at 1.
  apply hoare_bind_modify_inv; [solve [ledger_keep]|].
  apply hoare_bind_assoc. unfold upd at 1.
  apply hoare_bind_modify_inv; [solve [ledger_keep]|].
  apply hoare_bind_assoc. unfold upd at 1.
  apply (hoare_bind_modify _ (ledgerSt w0 (Some false) h cs));
    [solve [ledger_keep]|].
  apply hoare_bind_assoc. unfold upd at 1.
  apply hoare_bind_modify_inv; [solve [ledger_keep]|].
  apply hoare_bind_assoc.
  apply (hoare_bind _ _ _ (fun _ => pendingSt w0 (Some false) h cs)).
  { apply (hoare_conseq _ (ledgerSt w0 (Some false) h cs) _ _
             (fun _ => pendingSt w0 (Some false) h cs) _
             (pendingSt w0 (Some false) h cs));
      [apply paint_pendingSt|auto|auto|apply pendingSt_releasedSt]. }
  intros _. apply hoare_bind_assoc. unfold upd at 1.
  apply hoare_bind_modify_inv; [solve [ledger_keep]|].
  apply hoare_bind_assoc. apply hoare_bind_gets. intros cvs _.
  apply hoare_bind_assoc. unfold deref at 1.
  destruct cvs as [c|];
    [apply hoare_bind_ret|apply hoare_bind_throw; apply pendingSt_releasedSt].
  destruct (Canvas.lowMemory c); cbn [negb]; unfold when at 1.
  - apply hoare_bind_ret.
    eapply hoare_pre; [apply pendingSt_releasedSt|].
    hsteps ledger_keep ledger_no.
  - apply hoare_bind_assoc.
    apply (hoare_bind _ _ _ (fun _ => releasedSt w0 h cs)).
    { apply (hoare_conseq _ (pendingSt w0 (Some false) h cs) _ _
               (fun _ => releasedSt w0 h cs) _ (fun _ => False));
        [apply storePaintState_releasedSt|auto|auto|intros ? []]. }
    intros _. apply hoare_bind_ret. hsteps ledger_keep ledger_no.
Qed.

(** The timer of a released stroke fires: the cycle is closed. *)
Lemma flush_releasedSt w0 h cs w :
  releasedSt w0 h cs w ->
  _pendingPaintState (sprite (flush w)) = None /\
  timers (flush w) = ∅ /\
  history (flush w) = h /\ layer (flush w) = layer w0 /\
  exists org, commits (jobs (flush w)) = cs ++ [org].
Proof.
  intros (Hd & Hl & Hcyc & Hh & Hc). unfold flush, cycleInv in *.
  destruct (_pendingPaintState (sprite w)) as [t|] eqn:Hp.
  - destruct Hcyc as [d Hd'].
    unfold fireTimer, storePaintState. js_cbn. rewrite Hd', lookup_singleton_eq.
    js_cbn. rewrite Hp. js_cbn. rewrite Hd. js_cbn. log_cbn.
    rewrite Hd', !delete_singleton_eq, delete_empty, Hc.
    repeat split; try assumption. eexists. reflexivity.
  - rewrite Hp. repeat split; assumption.
Qed.

End Ledger.

Section OneEntry.
Context `{Externals}.

(** ** One history entry per cycle *)

(** C2 (as the code has it).  Of a stroke with any tool: a press in paint
    mode that leaves the brush down, then moves, frames, timer firings and
    encodings in any number and order, then the release; from a world in
    which the live timeouts are the timeout of the pending cycle and no
    other.  At every moment from press to release that still holds: there
    is one cycle and one timeout at most.  Up to the release nothing is
    committed: the history grows only by entries of commits that were under
    way before the stroke, one for one.  Once the stroke is released and
    the timer of the cycle has fired (at the release itself without the
    reduced-memory preference), no cycle is pending, no timeout is live and
    exactly one commit has been added to those under way, whose completion
    enqueues exactly one paint entry.  A [paint] that finds a cycle pending
    starts no other and leaves the pending timeout as it is: it is not
    armed again. *)
Theorem stroke_commits_exactly_one_entry :
  forall (w0 : World) (x y : float) (type : string) (evs : list Event)
         (x' y' : float),
    _isPaintMode (sprite w0) = true ->
    cycleInv w0 ->
    Brush.down (_brush (sprite (run [Press x y type] w0))) = true ->
    forallb duringStroke evs = true ->
    let stroke := Press x y type :: evs ++ [Release x' y'] in
    let before := length (commits (jobs w0)) in
    (forall k, cycleInv (run (take k stroke) w0)) /\
    (forall k, k <= S (length evs) ->
       let w := run (take k stroke) w0 in
       exists hs,
         history w = history w0 ++ hs /\
         length hs + length (commits (jobs w)) = before) /\
    (let w3 := flush (run stroke w0) in
     _pendingPaintState (sprite w3) = None /\ timers w3 = ∅ /\
     exists hs rest org i,
       history w3 = history w0 ++ hs /\
       commits (jobs w3) = rest ++ [org] /\
       length hs + length rest = before /\
       jobs w3 !! i = Some (JobEnqueuePaint org) /\
       forall r,
         let w4 := world_of (resolveJob i r w3) in
         history w4 =
           history w3 ++
           [(("spritePaint_" ++ Layer.id (layer w0))%string,
             mkEntry (restorePaint org) (restorePaint (Some r)) [org; Some r])] /\
         commits (jobs w4) = rest /\
         _pendingPaintState (sprite w4) = None /\ timers w4 = ∅) /\
    (forall (w : World) (t : positive),
       _pendingPaintState (sprite w) = Some t ->
       let w' := world_of (paint w) in
       _pendingPaintState (sprite w') = Some t /\
       timers w' = timers w /\ nextTimer w' = nextTimer w /\
       commits (jobs w') = commits (jobs w) /\ history w' = history w).
Proof.
  intros w0 x y type evs x' y' Hpm Hcyc Hdown Hall stroke before.
  assert (Hp : ledgerSt w0 (Some true) (history w0) (commits (jobs w0))
                 (run [Press x y type] w0)).
  { assert (Hp0 : ledgerSt w0 None (history w0) (commits (jobs w0))
                    (run [Press x y type] w0)).
    { cbn [run fold_left step].
      apply (preserves_world_of _ _ _ (handlePress_ledgerSt w0 _ _ x y type)).
      unfold ledgerSt. repeat split; assumption. }
    destruct Hp0 as (_ & Hrest). split; [exact Hdown|exact Hrest]. }
  clear Hdown.
  assert (Hcons : forall evs', run (Press x y type :: evs') w0 =
                               run evs' (run [Press x y type] w0))
    by reflexivity.
  assert (Hrun : forall evs', forallb duringStroke evs' = true ->
            exists hs cs',
              ledgerSt w0 (Some true) (history w0 ++ hs) cs'
                (run (Press x y type :: evs') w0) /\
              length hs + length cs' = before).
  { intros evs' Hall'. rewrite Hcons.
    apply (run_ledgerSt w0 evs' Hall' _ _ _ Hp). }
  assert (Hrel : exists hs cs',
            releasedSt w0 (history w0 ++ hs) cs' (run stroke w0) /\
            length hs + length cs' = before).
  { destruct (Hrun evs Hall) as (hs & cs' & Hst & Hlen).
    exists hs, cs'. split; [|exact Hlen].
    subst stroke. rewrite app_comm_cons, run_app.
    cbn [run fold_left step].
    apply (hoare_world_of _ _ _ _ (handleRelease_releasedSt w0 _ _ x' y') Hst). }
  split; [|split; [|split]].
  - intros k. destruct k as [|k]; [exact Hcyc|].
    subst stroke. cbn [take].
    destruct (decide (k <= length evs)) as [Hk|Hk].
    + rewrite take_app_le by exact Hk.
      destruct (Hrun (take k evs) (forallb_take _ _ _ Hall))
        as (hs & cs' & Hst & _).
      apply Hst.
    + rewrite take_ge by (rewrite length_app; cbn; lia).
      destruct Hrel as (hs & cs' & Hst & _). apply Hst.
  - intros k Hk. cbv zeta. destruct k as [|k].
    + exists []. rewrite app_nil_r. split; reflexivity.
    + subst stroke. cbn [take]. rewrite take_app_le by lia.
      destruct (Hrun (take k evs) (forallb_take _ _ _ Hall))
        as (hs & cs' & Hst & Hlen).
      destruct Hst as (_ & _ & _ & _ & Hh & Hc).
      exists hs. split; [exact Hh|]. rewrite Hc. exact Hlen.
  - cbv zeta. destruct Hrel as (hs & rest & Hst & Hlen).
    destruct (flush_releasedSt _ _ _ _ Hst) as (Hp3 & Ht3 & Hh3 & Hl3 & org & Hc3).
    split; [exact Hp3|]. split; [exact Ht3|].
    destruct (commits_last_lookup _ _ _ Hc3) as (i & Hi & Hrest).
    exists hs, rest, org, i.
    split; [exact Hh3|]. split; [exact Hc3|]. split; [exact Hlen|].
    split; [exact Hi|].
    intros r. unfold resolveJob, runJob. js_cbn. rewrite Hi. js_cbn.
    rewrite Hl3. repeat split; assumption.
  - intros w t Hpd.
    assert (Hinv : pendingInv w w) by (unfold pendingInv; repeat split).
    pose proof (preserves_world_of _ _ _ (paint_pendingInv w t Hpd) Hinv) as Hw.
    unfold pendingInv in Hw. cbv zeta. split_ands. repeat split; congruence.
Qed.

End OneEntry.

Lemma stroke_commits_exactly_one_entry_witness :
  let stroke := Press 10 10 "mousedown" :: demoStroke ++ [Release 14 11] in
  let w3 := flush (run stroke cloneReadyWorld) in
  _toolType (sprite cloneReadyWorld) = Some CLONE /\
  cycleInv (run stroke cloneReadyWorld) /\
  _pendingPaintState (sprite w3) = None /\ timers w3 = ∅ /\
  exists hs rest org,
    history w3 = history cloneReadyWorld ++ hs /\
    commits (jobs w3) = rest ++ [org] /\
    length hs + length rest = length (commits (jobs cloneReadyWorld)).
Proof.
  assert (H1 : _isPaintMode (sprite cloneReadyWorld) = true)
    by (vm_compute; reflexivity).
  assert (H2 : cycleInv cloneReadyWorld) by (vm_compute; reflexivity).
  assert (H3 : Brush.down
                 (_brush (sprite (run [Press 10 10 "mousedown"] cloneReadyWorld))) =
               true)
    by (vm_compute; reflexivity).
  assert (H4 : forallb duringStroke demoStroke = true)
    by (vm_compute; reflexivity).
  destruct (stroke_commits_exactly_one_entry cloneReadyWorld 10 10 "mousedown"
              demoStroke 14 11 H1 H2 H3 H4)
    as (Hcyc & _ & (Hp & Ht & hs & rest & org & i & Hh & Hc & Hlen & _) & _).
  split; [vm_compute; reflexivity|].
  split; [exact (Hcyc 7)|]. split; [exact Hp|]. split; [exact Ht|].
  exists hs, rest, org. split; [exact Hh|]. split; [exact Hc|exact Hlen].
Defined.

(** Against C2 as stated: a second edit comes while the cycle of the
    first is pending; the pending timeout is the same as before, with the
    same delay, and no timeout has been requested since. *)
Lemma edit_does_not_rearm_timer_counterexample :
  let w := run [Press 10 10 "mousedown"; Move 12 10 "mousemove"; Update] demoWorld in
  let w' := run [Move 14 11 "mousemove"; Update] w in
  _pendingPaintState (sprite w) = Some 1%positive /\
  timers w !! 1%positive = Some 5000%N /\ nextTimer w = 2%positive /\
  length (brushRenders (calls w)) = 1 /\
  length (brushRenders (calls w')) = 2 /\
  _pendingPaintState (sprite w') = Some 1%positive /\
  timers w' = timers w /\ nextTimer w' = 2%positive.
Proof. vm_compute. repeat split. Qed.

(** * Further properties of the sprite *)

Section PaintStore.
Context `{Externals}.

(** ** [storePaintState] *)

(** Called while the brush is down and a cycle is pending (by the timer or by
    a tool change), [storePaintState] answers [false], cancels the pending
    timeout and arms one new timeout of 1000 ms in its place; it commits
    nothing and starts no encoding. *)
Theorem storePaintState_rearms_while_brush_is_down :
  forall (w : World) (t : positive),
    _pendingPaintState (sprite w) = Some t ->
    Brush.down (_brush (sprite w)) = true ->
    exists w',
      storePaintState w = Ok RetFalse w' /\
      _pendingPaintState (sprite w') = Some (nextTimer w) /\
      timers w' = <[nextTimer w := 1000%N]> (delete t (timers w)) /\
      nextTimer w' = Pos.succ (nextTimer w) /\
      jobs w' = jobs w /\ history w' = history w /\ calls w' = calls w /\
      layer w' = layer w /\ _brush (sprite w') = _brush (sprite w) /\
      _orgSourceToStore (sprite w') = _orgSourceToStore (sprite w).
Proof.
  intros w t Hp Hd. unfold storePaintState, debouncePaintStore. js_cbn.
  rewrite Hp. js_cbn. rewrite Hd. js_cbn.
  eexists. split; [reflexivity|]. world_cbn. repeat split.
Qed.

(** Called with the brush up and a cycle pending, [storePaintState] closes
    the cycle: the timeout is cancelled, the stored original is taken and
    forgotten, and the encoding of the current source is requested.  When
    that encoding completes with resource [r], one entry is enqueued under
    the key of the layer; its undo restores the original, its redo restores
    [r], and it owns both resources. *)
Theorem storePaintState_commit_pairs_original_and_result :
  forall (w : World) (t : positive),
    _pendingPaintState (sprite w) = Some t ->
    Brush.down (_brush (sprite w)) = false ->
    let org := _orgSourceToStore (sprite w) in
    exists w',
      storePaintState w = Ok RetPromise w' /\
      _pendingPaintState (sprite w') = None /\
      _orgSourceToStore (sprite w') = None /\
      timers w' = delete t (timers w) /\
      calls w' = calls w ++ [canvasToBlob] /\
      jobs w' = jobs w ++ [JobEnqueuePaint org] /\
      history w' = history w /\
      forall r,
        let w'' := world_of (resolveJob (length (jobs w)) r w') in
        history w'' =
          history w ++
          [(("spritePaint_" ++ Layer.id (layer w))%string,
            mkEntry (restorePaint org) (restorePaint (Some r)) [org; Some r])] /\
        jobs w'' = jobs w.
Proof.
  intros w t Hp Hd org. unfold storePaintState. js_cbn.
  rewrite Hp. js_cbn. rewrite Hd. js_cbn.
  eexists. split; [reflexivity|]. world_cbn. repeat split.
  - unfold resolveJob, runJob. js_cbn. rewrite list_lookup_middle by reflexivity.
    js_cbn. reflexivity.
  - unfold resolveJob, runJob. js_cbn. rewrite list_lookup_middle by reflexivity.
    js_cbn. rewrite take_app_length.
    rewrite drop_app_ge by lia. replace (S (length (jobs w)) - length (jobs w)) with 1 by lia.
    cbn. apply app_nil_r.
Qed.

End PaintStore.

Lemma storePaintState_rearms_while_brush_is_down_witness :
  let w := run [Press 10 10 "mousedown"; Update] demoWorld in
  exists w',
    storePaintState w = Ok RetFalse w' /\
    _pendingPaintState (sprite w') = Some 2%positive /\
    timers w' = <[2%positive := 1000%N]> (delete 1%positive (timers w)).
Proof.
  destruct (storePaintState_rearms_while_brush_is_down
              (run [Press 10 10 "mousedown"; Update] demoWorld) 1%positive)
    as (w' & Hs & Hp & Ht & _).
  { vm_compute. reflexivity. }
  { vm_compute. reflexivity. }
  exists w'. split; [exact Hs|]. split; [exact Hp|exact Ht].
Defined.

Lemma storePaintState_commit_pairs_original_and_result_witness :
  let w := run [Press 10 10 "mousedown"; Update; JobResolves 0 "blob:original"]
             lowMemoryWorld in
  let w1 := world_of (handleRelease 10 10 w) in
  exists w',
    storePaintState w1 = Ok RetPromise w' /\
    _pendingPaintState (sprite w') = None /\
    jobs w' = jobs w1 ++ [JobEnqueuePaint (_orgSourceToStore (sprite w1))].
Proof.
  intros w w1.
  destruct (storePaintState_commit_pairs_original_and_result w1 1%positive)
    as (w' & Hs & Hp & _ & _ & _ & Hj & _).
  { vm_compute. reflexivity. }
  { vm_compute. reflexivity. }
  exists w'. split; [exact Hs|]. split; [exact Hp|exact Hj].
Defined.

Ltac flushed_keep :=
  intros; open_reads; unfold flushedInv in *; split_ands; subst; world_cbn;
  log_cbn; repeat split; congruence.

Ltac flushed_no := unfold flushedInv in *; split_ands; subst; congruence.

Section ToolChange.
Context `{Externals}.

(** ** Changing tools *)

(** A tool change does not wait for the debounce timer: with a cycle pending
    and the brush up, [handleActiveTool] closes the cycle at once, whatever
    the new tool is and whether or not the sprite is interactive: the timeout
    is cancelled and the commit of the stored original is under way when it
    returns (or throws). *)
Theorem handleActiveTool_commits_pending_cycle_at_once :
  forall (w : World) (t : positive) (tool : option ToolType)
         (toolOptions : option loc) (documentSelection : option (list Point.t)),
    _pendingPaintState (sprite w) = Some t ->
    Brush.down (_brush (sprite w)) = false ->
    let w' := world_of (handleActiveTool tool toolOptions documentSelection w) in
    _pendingPaintState (sprite w') = None /\
    timers w' = delete t (timers w) /\
    commits (jobs w') = commits (jobs w) ++ [_orgSourceToStore (sprite w)] /\
    history w' = history w.
Proof.
  intros w t tool opts sel Hp Hd. cbv zeta.
  assert (Hh : hoare (eq w) (handleActiveTool tool opts sel)
                 (fun _ => flushedInv w t) (flushedInv w t)).
  { unfold handleActiveTool. repeat hpin.
    match goal with |- hoare (eq ?u) _ _ _ => set (w1 := u) end.
    apply (hoare_bind _ _ _ (fun _ => flushedInv w t)).
    - intros ? <-. subst w1. unfold storePaintState. js_cbn.
      rewrite Hp. js_cbn. rewrite Hd. js_cbn.
      unfold flushedInv. world_cbn. log_cbn. repeat split.
    - intros _. hsteps flushed_keep flushed_no. }
  pose proof (hoare_world_of _ _ _ w Hh eq_refl) as Hw.
  unfold flushedInv in Hw. split_ands. repeat split; assumption.
Qed.

End ToolChange.

Lemma handleActiveTool_commits_pending_cycle_at_once_witness :
  let w := world_of (handleRelease 10 10
             (run [Press 10 10 "mousedown"; Update] lowMemoryWorld)) in
  let w' := world_of (handleActiveTool (Some DRAG) None None w) in
  _pendingPaintState (sprite w') = None /\
  timers w' = delete 1%positive (timers w) /\
  commits (jobs w') = commits (jobs w) ++ [_orgSourceToStore (sprite w)].
Proof.
  intros w.
  destruct (handleActiveTool_commits_pending_cycle_at_once w 1%positive
              (Some DRAG) None None) as (Hp & Ht & Hj & _).
  { vm_compute. reflexivity. }
  { vm_compute. reflexivity. }
  split; [exact Hp|]. split; [exact Ht|exact Hj].
Defined.

Ltac tool_open :=
  intros; open_reads; unfold toolState, toolModes in *; split_ands;
  repeat match goal with
         | E : (_, _) = (_, _) |- _ =>
             apply pair_equal_spec in E; destruct E
         end.

Ltac tool_keep := tool_open; subst; world_cbn; repeat split; congruence.

Ltac tool_state :=
  tool_open; world_cbn;
  repeat match goal with
         | |- _ /\ _ => split
         | |- (_, _) = _ => apply f_equal2
         end;
  first [eassumption | reflexivity | congruence].

(** An update that changes the tool state: the new state is read off. *)
Ltac tool_track :=
  lazymatch goal with
  | |- hoare (toolState ?w0 _ _ _) (bind (modify _) _) _ _ =>
      eapply (hoare_bind_modify _ (toolState w0 _ _ _)); [tool_state|]
  end.

Ltac tool_sel :=
  first
    [ left; reflexivity
    | right; tool_open; subst;
      repeat split; try reflexivity;
      match goal with
      | E : isSelectionClosed _ && canDrawOnSelection ?l = true |- _ =>
          first [exact E | congruence]
      end ].

Section ToolModes.
Context `{Externals}.

(** The state a tool change leaves the sprite in. *)
Lemma handleActiveTool_modes :
  forall (w : World) (tool : option ToolType) (toolOptions : option loc)
         (documentSelection : option (list Point.t)),
    let w' := world_of (handleActiveTool tool toolOptions documentSelection w) in
    let active := _interactive (sprite w) && isTruthyTool tool in
    toolModes w' = (if active then expectedModes tool else (false, false, false)) /\
    _toolType (sprite w') = (if active then tool else None) /\
    _cloneStartCoords (sprite w') = None /\
    (_selection (sprite w') = None \/
     _selection (sprite w') = documentSelection /\
     _isPaintMode (sprite w') = true /\
     isSelectionClosed documentSelection && canDrawOnSelection (layer w) = true).
Proof.
  intros w tool opts sel. cbv zeta.
  set (Q := fun w' : World =>
    toolModes w' = (if _interactive (sprite w) && isTruthyTool tool
                    then expectedModes tool else (false, false, false)) /\
    _toolType (sprite w') = (if _interactive (sprite w) && isTruthyTool tool
                             then tool else None) /\
    _cloneStartCoords (sprite w') = None /\
    (_selection (sprite w') = None \/
     _selection (sprite w') = sel /\ _isPaintMode (sprite w') = true /\
     isSelectionClosed sel && canDrawOnSelection (layer w) = true)).
  assert (Hfin : forall modes tt s u,
    toolState w modes tt s u ->
    modes = (if _interactive (sprite w) && isTruthyTool tool
             then expectedModes tool else (false, false, false)) ->
    tt = (if _interactive (sprite w) && isTruthyTool tool then tool else None) ->
    (s = None \/ s = sel /\ snd (fst modes) = true /\
       isSelectionClosed sel && canDrawOnSelection (layer w) = true) ->
    Q u).
  { intros modes tt s u Hu Hm Ht Hs. unfold toolState, toolModes in Hu.
    destruct Hu as (Hmo & Htt & Hsel & Hcs & _ & _). unfold Q, toolModes.
    rewrite Hmo, Htt, Hsel, Hcs. repeat split; try assumption.
    destruct Hs as [->|(-> & Hp & Hc)]; [left; reflexivity|right].
    split; [reflexivity|]. split; [|exact Hc].
    rewrite <- Hmo in Hp. exact Hp. }
  apply (hoare_world_of (eq w) Q); [|reflexivity].
  unfold handleActiveTool. repeat hpin.
  eapply hoare_pre with (P' := toolState w (false, false, false) None None).
  { intros ? <-. unfold toolState, toolModes. world_cbn. repeat split. }
  apply hoare_bind_inv; [hsteps tool_keep idtac|intros _].
  unfold this at 1. apply hoare_bind_gets. intros a Ha.
  assert (a = _interactive (sprite w)) as ->.
  { destruct Ha as (u & Hu & <-). unfold toolState in Hu. split_ands. assumption. }
  clear Ha.
  destruct (_interactive (sprite w)) eqn:Hi; cbn [negb orb andb] in *.
  2:{ apply hoare_ret. intros u Hu. eapply Hfin; eauto. }
  destruct (isTruthyTool tool) eqn:Ht; cbn [negb] in *.
  2:{ apply hoare_ret. intros u Hu. eapply Hfin; eauto. }
  unfold upd at 1. tool_track.
  destruct tool as [[]|]; cbn [isTruthyTool expectedModes] in *;
    try discriminate Ht;
    repeat first
      [ hflat ltac:(first
                     [ tool_keep
                     | intros ? ?; eapply Hfin;
                       [tool_state|reflexivity|reflexivity|tool_sel] ])
              idtac
      | tool_track ].
Qed.


(** [handleActiveTool] leaves the sprite in the mode of the tool it is given
    and in no other: drag for the drag tool, paint for fill, eraser, brush
    and clone, colour picker for the eyedropper, none for every other tool.
    A sprite that is not interactive, or a call without a tool, ends with no
    mode and no tool at all.  The clone start coordinates are forgotten, and
    the selection is either forgotten or, in paint mode, the closed
    selection of the document that the layer permits. *)
Theorem handleActiveTool_sets_the_mode_of_the_tool :
  forall (w : World) (tool : option ToolType) (toolOptions : option loc)
         (documentSelection : option (list Point.t)),
    let w' := world_of (handleActiveTool tool toolOptions documentSelection w) in
    let active := _interactive (sprite w) && isTruthyTool tool in
    toolModes w' = (if active then expectedModes tool else (false, false, false)) /\
    _toolType (sprite w') = (if active then tool else None) /\
    _cloneStartCoords (sprite w') = None /\
    (_selection (sprite w') = None \/
     _selection (sprite w') = documentSelection /\
     _isPaintMode (sprite w') = true /\
     isSelectionClosed documentSelection && canDrawOnSelection (layer w) = true).
Proof. exact handleActiveTool_modes. Qed.

End ToolModes.

(** ** Effects are cached once per frame *)

Section EffectsCache.
Context `{Externals}.

(** Once [cacheEffects] has been called, calling it again before the frame
    has run changes nothing: no second frame is requested. *)
Theorem cacheEffects_second_call_is_noop :
  forall w : World,
    let w1 := world_of (cacheEffects w) in
    _rafFx (sprite w1) = true /\ cacheEffects w1 = Ok tt w1.
Proof.
  intros w. cbv zeta. unfold cacheEffects. js_cbn.
  destruct (_rafFx (sprite w)) eqn:Hr; js_cbn.
  - rewrite Hr. split; reflexivity.
  - split; reflexivity.
Qed.

(** With no frame requested, [cacheEffects] requests one.  When that frame
    runs, the render of the effects starts and the flag stays set: as long
    as the render is under way [cacheEffects] requests nothing.  When the
    render has resolved the flag is cleared and the sprite is as it was,
    ready to request the next frame. *)
Theorem cacheEffects_frame_round_trip :
  forall (w : World) (r r' : Resource),
    _rafFx (sprite w) = false ->
    let w1 := world_of (cacheEffects w) in
    let w2 := world_of (resolveJob (length (jobs w)) r w1) in
    let w3 := world_of (resolveJob (length (jobs w)) r' w2) in
    jobs w1 = jobs w ++ [JobCacheEffects] /\
    _rafFx (sprite w2) = true /\
    jobs w2 = jobs w ++ [JobEffectsRendered] /\
    calls w2 = calls w ++ [requestAnimationFrame; renderEffectsForLayer] /\
    cacheEffects w2 = Ok tt w2 /\
    sprite w3 = sprite w /\ jobs w3 = jobs w /\ calls w3 = calls w2.
Proof.
  intros w r r' Hr. cbv zeta. unfold cacheEffects, resolveJob. js_cbn.
  rewrite Hr. js_cbn. rewrite list_lookup_middle by reflexivity.
  unfold runJob. js_cbn.
  rewrite take_app_length.
  rewrite drop_ge by (rewrite length_app; cbn; lia).
  rewrite app_nil_r. js_cbn. rewrite list_lookup_middle by reflexivity.
  js_cbn. rewrite take_app_length.
  rewrite drop_ge by (rewrite length_app; cbn; lia).
  rewrite app_nil_r, <- app_assoc. repeat split.
  destruct (sprite w); cbn in *; subst; reflexivity.
Qed.

End EffectsCache.

Lemma cacheEffects_frame_round_trip_witness :
  jobs (world_of (resolveJob 0 "blob:2"
                    (world_of (resolveJob 0 "blob:1"
                                 (world_of (cacheEffects demoWorld)))))) = [].
Proof.
  destruct (cacheEffects_frame_round_trip demoWorld "blob:1" "blob:2" eq_refl)
    as (_ & _ & _ & _ & _ & _ & Hj & _).
  exact Hj.
Defined.

(** ** Undo and redo *)

Section Undo.
Context `{Externals}.

(** Where [setBounds] returns, the entry it has enqueued brings the layer
    and, where the layer still has a sprite, the sprite back to where they
    were: its undo restores the position from before the call, its redo
    the position from after it.  Neither touches the size of the bounds,
    and with no sprite left for the layer the bounds are not touched at
    all.  Where [setBounds] throws it has changed nothing, and there is no
    entry to undo. *)
Theorem setBounds_undo_restores_position_not_size :
  forall (w : World) (x y width height : float),
    match setBounds x y width height w with
    | Throw _ w1 => w1 = w
    | Ok _ w1 =>
        exists e,
          lastEntry w1 = Some e /\
          length (history w1) = S (length (history w)) /\
          let w2 := world_of (runAction (undo e) w1) in
          let w3 := world_of (runAction (redo e) w2) in
          Layer.x (layer w2) = Layer.x (layer w) /\
          Layer.y (layer w2) = Layer.y (layer w) /\
          Layer.x (layer w3) = Layer.x (layer w1) /\
          Layer.y (layer w3) = Layer.y (layer w1) /\
          Bounds.width (_bounds (sprite w2)) = Bounds.width (_bounds (sprite w1)) /\
          Bounds.height (_bounds (sprite w2)) = Bounds.height (_bounds (sprite w1)) /\
          if registered w then
            Bounds.left (_bounds (sprite w2)) = Bounds.left (_bounds (sprite w)) /\
            Bounds.top (_bounds (sprite w2)) = Bounds.top (_bounds (sprite w)) /\
            _bounds (sprite w3) = _bounds (sprite w1)
          else
            sprite w2 = sprite w1 /\ sprite w3 = sprite w1
    end.
Proof.
  intros w x y width height.
  unfold setBounds, lastEntry. js_cbn.
  destruct (sprite_setBounds w x y _ _) as [e|b'] eqn:Hbase; js_cbn;
    [reflexivity|].
  rewrite last_snoc. cbn [fmap option_fmap option_map snd].
  eexists. split; [reflexivity|].
  split; [rewrite length_app; cbn; lia|].
  cbn [undo redo runAction]. unfold positionSpriteFromHistory. js_cbn.
  destruct (registered w) eqn:Hreg; js_cbn; rewrite ?Hreg; js_cbn;
    repeat split.
  destruct b'; reflexivity.
Qed.

(** Undoing or redoing a paint entry clears the whole source of the layer
    and, once the image of the stored state has loaded, draws it there; the
    effects are cached again only if the layer still has a sprite.  The
    mask is never drawn on.  Without a context for the source the action
    throws and does nothing. *)
Theorem restorePaint_clears_then_draws_the_source :
  forall (w : World) (state : option Resource) (r : Resource),
    match getContext (Layer.source (layer w)) with
    | None =>
        runAction (restorePaint state) w = Throw (TypeError "ctx is null") w
    | Some ctx =>
        let w1 := world_of (runAction (restorePaint state) w) in
        let w2 := world_of (resolveJob (length (jobs w)) r w1) in
        calls w1 =
          calls w ++
          [ctx_clearRect CtxSource 0 0 (Surface.width ctx) (Surface.height ctx)] /\
        jobs w1 = jobs w ++ [JobImageLoad state] /\
        calls w2 =
          calls w1 ++ ctx_drawImage CtxSource state ::
            (if registered w
             then clearCacheProperty "filterData" ::
                    (if _rafFx (sprite w) then [] else [requestAnimationFrame])
             else []) /\
        jobs w2 =
          jobs w ++ (if registered w && negb (_rafFx (sprite w))
                     then [JobCacheEffects] else []) /\
        layer w2 = layer w
    end.
Proof.
  intros w state r. cbn [runAction]. unfold restorePaintFromHistory. js_cbn.
  destruct (getContext (Layer.source (layer w))) as [ctx|] eqn:Hctx; js_cbn;
    [|reflexivity].
  unfold resolveJob. js_cbn. rewrite list_lookup_middle by reflexivity.
  unfold runJob, resetFilterAndRecache, cacheEffects. js_cbn.
  rewrite take_app_length.
  rewrite drop_ge by (rewrite length_app; cbn; lia).
  rewrite app_nil_r.
  destruct (registered w) eqn:Hreg; js_cbn;
    [destruct (_rafFx (sprite w)) eqn:Hr; js_cbn|];
    rewrite <- ?app_assoc, ?app_nil_r; repeat split.
Qed.

End Undo.

(** ** Pointer events *)

Section Pointer.
Context `{Externals}.

(** In colour-picker mode a press picks the colour under the pointer and
    does nothing else: whatever the tool and the paint flag, no point is
    recorded, nothing is painted and no snapshot cycle starts.  Without a
    canvas the press throws. *)
Theorem handlePress_color_picker_only_picks :
  forall (w : World) (x y : float) (type : string),
    _isColorPicker (sprite w) = true ->
    let moved := if String.prefix "touch" type
                 then set_sprite (set__pointerY y (set__pointerX x (sprite w))) w
                 else w in
    handlePress x y type w =
      match canvas w with
      | Some c =>
          Ok tt (set_canvas (Some (Canvas.set_activeColor (pickColor c x y) c)) moved)
      | None => Throw (TypeError "canvas is undefined") moved
      end.
Proof.
  intros w x y type Hcp. cbv zeta. unfold handlePress. js_cbn.
  destruct (String.prefix "touch" type); js_cbn; rewrite Hcp; js_cbn;
    destruct (canvas w); reflexivity.
Qed.

(** A layer that is not the active one ignores the tool and the pointer:
    after [handleActiveLayer] with the id of another layer, whatever tool is
    chosen next, a press records no point, paints nothing and picks no
    colour; at most it notes where a touch went down. *)
Theorem press_on_inactive_layer_is_ignored :
  forall (w : World) (id : string) (tool : option ToolType)
         (toolOptions : option loc) (documentSelection : option (list Point.t))
         (x y : float) (type : string),
    Layer.id (layer w) <> id ->
    let w1 := world_of (handleActiveLayer id w) in
    let w2 := world_of (handleActiveTool tool toolOptions documentSelection w1) in
    _toolType (sprite w2) = None /\
    handlePress x y type w2 =
      Ok tt (if String.prefix "touch" type
             then set_sprite (set__pointerY y (set__pointerX x (sprite w2))) w2
             else w2).
Proof.
  intros w id tool opts sel x y type Hid. cbv zeta.
  assert (Hi : _interactive (sprite (world_of (handleActiveLayer id w))) = false).
  { unfold handleActiveLayer. js_cbn. apply String.eqb_neq. exact Hid. }
  revert Hi. generalize (world_of (handleActiveLayer id w)). intros w1 Hi.
  pose proof (handleActiveTool_modes w1 tool opts sel) as Hm. cbv zeta in Hm.
  revert Hm. generalize (world_of (handleActiveTool tool opts sel w1)).
  intros w2 (Hm & Ht & _).
  rewrite Hi in Hm, Ht. cbn [andb] in Hm, Ht.
  unfold toolModes in Hm. apply pair_equal_spec in Hm. destruct Hm as [Hm Hcp].
  apply pair_equal_spec in Hm. destruct Hm as [Hdm Hpm].
  split; [exact Ht|].
  unfold handlePress. js_cbn.
  destruct (String.prefix "touch" type); js_cbn; rewrite Hcp, Hpm; reflexivity.
Qed.

(** While the sprite acts on the mask and is not painting, a move drags the
    mask and nothing else: the mask offset follows the pointer from where
    the drag started, the layer and the bounds of the sprite stay where they
    are, even in drag mode, and the effects are cached again. *)
Theorem handleMove_drags_the_mask_only :
  forall (w : World) (x y : float) (type : string) (offset start : Point.t),
    _isPaintMode (sprite w) = false ->
    actionTarget (sprite w) = "mask"%string ->
    _dragStartOffset (sprite w) = Some offset ->
    _dragStartEventCoordinates (sprite w) = Some start ->
    let w' := world_of (handleMove x y type w) in
    let bounds := _bounds (sprite w) in
    layer w' =
      Layer.set_maskY
        (Point.y offset + ((y - Bounds.top bounds) - Point.y start))
        (Layer.set_maskX
           (Point.x offset + ((x - Bounds.left bounds) - Point.x start))
           (layer w)) /\
    _bounds (sprite w') = bounds /\
    exists cs, calls w' = calls w ++ clearCacheProperty "filterData" :: cs.
Proof.
  intros w x y type offset start Hpm Ht Ho Hs. cbv zeta.
  unfold handleMove, resetFilterAndRecache, cacheEffects, storeBrushPointer.
  js_cbn.
  destruct (String.prefix "touch" type); cbn [negb]; js_cbn;
    rewrite Hpm, Ht; cbn [negb andb]; rewrite String.eqb_refl; js_cbn;
    rewrite Ho; js_cbn; rewrite Hs; js_cbn;
    destruct (_rafFx (sprite w)); js_cbn;
    destruct (Brush.down (_brush (sprite w))); js_cbn;
    (split; [reflexivity|]); (split; [reflexivity|]);
    rewrite <- ?app_assoc; eexists; reflexivity.
Qed.


End Pointer.

Lemma handlePress_color_picker_only_picks_witness :
  _isColorPicker (sprite pickerWorld) = true /\
  exists w', handlePress 3 4 "mousedown" pickerWorld = Ok tt w'.
Proof.
  assert (Hcp : _isColorPicker (sprite pickerWorld) = true)
    by (vm_compute; reflexivity).
  split; [exact Hcp|].
  pose proof (handlePress_color_picker_only_picks pickerWorld 3 4 "mousedown" Hcp)
    as Hw.
  cbv zeta in Hw. rewrite Hw.
  assert (Hc : canvas pickerWorld = Some (Canvas.mk "rgba(255,0,0,1)" false))
    by (vm_compute; reflexivity).
  rewrite Hc. eexists. reflexivity.
Defined.

Lemma press_on_inactive_layer_is_ignored_witness :
  Layer.id (layer demoWorld) <> "layer_2"%string /\
  exists w',
    handlePress 3 4 "mousedown"
      (world_of (handleActiveTool (Some BRUSH) (Some 0) None
                   (world_of (handleActiveLayer "layer_2" demoWorld)))) = Ok tt w'.
Proof.
  assert (Hid : Layer.id (layer demoWorld) <> "layer_2"%string).
  { vm_compute. discriminate. }
  split; [exact Hid|].
  destruct (press_on_inactive_layer_is_ignored demoWorld "layer_2" (Some BRUSH)
              (Some 0) None 3 4 "mousedown" Hid) as [_ Hw].
  rewrite Hw. eexists. reflexivity.
Defined.

Lemma handleMove_drags_the_mask_only_witness :
  exists cs,
    calls (world_of (handleMove 30 20 "mousemove" maskDragWorld)) =
    calls maskDragWorld ++ clearCacheProperty "filterData" :: cs.
Proof.
  assert (H1 : _isPaintMode (sprite maskDragWorld) = false)
    by (vm_compute; reflexivity).
  assert (H2 : actionTarget (sprite maskDragWorld) = "mask"%string)
    by (vm_compute; reflexivity).
  assert (H3 : _dragStartOffset (sprite maskDragWorld) = Some (Point.mk 0 0))
    by (vm_compute; reflexivity).
  assert (H4 : _dragStartEventCoordinates (sprite maskDragWorld) = Some (Point.mk 0 0))
    by (vm_compute; reflexivity).
  destruct (handleMove_drags_the_mask_only maskDragWorld 30 20 "mousemove"
              (Point.mk 0 0) (Point.mk 0 0) H1 H2 H3 H4) as (_ & _ & Hc).
  exact Hc.
Defined.


(** ** The live preview *)

Ltac preview_keep :=
  intros; open_reads; unfold previewInv in *; split_ands; subst;
  repeat match goal with
         | |- _ /\ _ => split
         end;
  first [ solve [world_cbn; congruence]
        | eapply appended_same; [eassumption|reflexivity]
        | eapply appended_call; [eassumption| |reflexivity];
          first [exact I | reflexivity] ].

Ltac preview_no :=
  unfold previewInv in *; split_ands; subst;
  try congruence;
  repeat match goal with
         | Hd : Brush.down ?b = true, E : context [Brush.down ?b] |- _ =>
             rewrite Hd in E; cbn in E
         end;
  try congruence;
  match goal with
  | Ht : isBrushTool ?t = true, E : isTool _ ?t = true |- _ =>
      destruct t as [[]|]; discriminate
  end.

Section Preview.
Context `{Externals}.

Lemma paint_previewInv w0 : preserves (previewInv w0) paint.
Proof.
  unfold paint.
  repeat (lazymatch goal with
          | |- hoare _ (bind (if isTool FILL _ then _ else _) _) _ _ => fail
          | |- _ => idtac
          end; hnext preview_keep preview_no).
  hflats preview_keep preview_no.
Qed.

(** While the brush of the brush or eraser tool is down, a frame renders on
    the preview canvas only: [update] fills nothing, clears nothing and
    renders no stroke on the source or the mask, requests no recache of the
    effects, and leaves the layer and the recorded points as they are,
    whether [paint] returns or throws. *)
Theorem update_previews_without_touching_the_layer :
  forall w : World,
    Brush.down (_brush (sprite w)) = true ->
    isBrushTool (_toolType (sprite w)) = true ->
    let w' := world_of (update w) in
    appended (calls w) leavesLayer w' /\
    layer w' = layer w /\
    Brush.down (_brush (sprite w')) = true /\
    Brush.pointers (_brush (sprite w')) = Brush.pointers (_brush (sprite w)).
Proof.
  intros w Hd Ht. cbv zeta.
  assert (Hu : preserves (previewInv w) update).
  { hsteps_with preview_keep preview_no ltac:(apply paint_previewInv). }
  pose proof (preserves_world_of _ _ w Hu) as Hw.
  destruct Hw as (Hd' & Hp & _ & Hl & _ & Ha).
  { unfold previewInv. repeat split; try assumption.
    exists []. split; [rewrite app_nil_r; reflexivity|constructor]. }
  auto.
Qed.

End Preview.

Lemma update_previews_without_touching_the_layer_witness :
  Brush.pointers (_brush (sprite (world_of (update (run [Press 10 10 "mousedown"] demoWorld))))) =
  Brush.pointers (_brush (sprite (run [Press 10 10 "mousedown"] demoWorld))).
Proof.
  assert (Hd : Brush.down (_brush (sprite (run [Press 10 10 "mousedown"] demoWorld))) = true)
    by (vm_compute; reflexivity).
  assert (Ht : isBrushTool (_toolType (sprite (run [Press 10 10 "mousedown"] demoWorld))) = true)
    by (vm_compute; reflexivity).
  destruct (update_previews_without_touching_the_layer _ Hd Ht) as (_ & _ & _ & Hp).
  exact Hp.
Defined.

(** ** Lifting the brush *)

Ltac lifted_keep :=
  intros; open_reads; unfold liftedInv in *; split_ands; subst;
  repeat match goal with
         | |- _ /\ _ => split
         end;
  first [ solve [world_cbn; congruence]
        | eapply appendedHas_same; [eassumption|reflexivity]
        | eapply appendedHas_call; [eassumption|reflexivity] ].

Ltac lifted_no := unfold liftedInv in *; split_ands; subst; congruence.

Section Lift.
Context `{Externals}.

Lemma paint_liftedInv w0 : preserves (liftedInv w0) paint.
Proof.
  unfold paint.
  repeat (lazymatch goal with
          | |- hoare _ (bind (if isTool FILL _ then _ else _) _) _ _ => fail
          | |- _ => idtac
          end; hnext lifted_keep lifted_no).
  hflats lifted_keep lifted_no.
Qed.

(** A release with the brush down always ends the preview: the preview
    canvas is disposed of and forgotten, the brush is up and its cursor is
    back at the first point, whatever the tool and whether the final
    [paint] returns or throws. *)
Theorem handleRelease_always_ends_the_preview :
  forall (w : World) (x y : float),
    Brush.down (_brush (sprite w)) = true ->
    let w' := world_of (handleRelease x y w) in
    Brush.down (_brush (sprite w')) = false /\
    Brush.last (_brush (sprite w')) = 0 /\
    tempCanvas (sprite w') = None /\
    appendedHas (calls w) disposeTempCanvas w'.
Proof.
  intros w x y Hd. cbv zeta.
  apply (hoare_world_of (eq w) (liftedInv w)); [|reflexivity].
  unfold handleRelease. unfold this at 1. apply hoare_bind_gets. intros a Ha.
  destruct Ha as (? & <- & <-). rewrite Hd. unfold when at 1.
  repeat hpin.
  eapply hoare_pre with (P' := liftedInv w).
  { intros ? <-. unfold liftedInv. world_cbn. repeat split.
    exists [disposeTempCanvas]. split; [reflexivity|left; reflexivity]. }
  hsteps_with lifted_keep lifted_no ltac:(apply paint_liftedInv).
Qed.

End Lift.

Lemma handleRelease_always_ends_the_preview_witness :
  tempCanvas
    (sprite (world_of (handleRelease 10 10
                         (run [Press 10 10 "mousedown"; Update] demoWorld)))) = None.
Proof.
  assert (Hd : Brush.down
                 (_brush (sprite (run [Press 10 10 "mousedown"; Update] demoWorld))) = true)
    by (vm_compute; reflexivity).
  destruct (handleRelease_always_ends_the_preview _ 10 10 Hd) as (_ & _ & Ht & _).
  exact Ht.
Defined.

(** ** Projections of what [paint] calls *)

Lemma omap_snoc {A B} (f : A -> option B) (l : list A) (x : A) :
  omap f (l ++ [x]) = omap f l ++ from_option (fun r => [r]) [] (f x).
Proof. rewrite omap_app. cbn. destruct (f x); reflexivity. Qed.

(** A value is read: what the assertion tells of it is put in terms of the
    world the method started in. *)
Ltac log_read :=
  apply hoare_bind_gets;
  let u := fresh "u" in
  let Hu := fresh "Hu" in
  intros ? (u & Hu & <-); cbv beta;
  unfold logInv in Hu;
  let Hl := fresh in
  let Hc := fresh in
  let Hh := fresh in
  let Ht := fresh in
  let Hto := fresh in
  let Hs := fresh in
  let Hb := fresh in
  let Hd := fresh in
  destruct Hu as (Hl & Hc & Hh & Ht & Hto & Hs & Hb & Hd & _);
  unfold isMaskable, isRotated;
  rewrite ?Hl, ?Hc, ?Hh, ?Ht, ?Hto, ?Hs, ?Hb, ?Hd;
  clear Hl Hc Hh Ht Hto Hs Hb Hd; try clear u;
  repeat match goal with
         | E : ?x = true |- context [?x] => rewrite E
         | E : ?x = false |- context [?x] => rewrite E
         | E : ?x = Some _ |- context [?x] => rewrite E
         | E : ?x = None |- context [?x] => rewrite E
         end;
  cbn [negb andb orb isTool].

(** The assertion after an update, with the projection of a new call
    appended. *)
Ltac log_state f :=
  intros; unfold logInv in *; split_ands; world_cbn;
  repeat match goal with
         | |- _ /\ _ => split
         end;
  first [ eassumption
        | congruence
        | rewrite omap_snoc;
          match goal with
          | Hx : omap f (calls ?u) = _ |- context [omap f (calls ?u)] =>
              rewrite Hx
          end;
          unfold f; cbn [from_option];
          lazymatch goal with
          | |- _ = _ ++ ?i =>
              first [ is_evar i; exact (eq_sym (app_assoc _ _ _))
                    | rewrite app_nil_r; reflexivity ]
          end ].

(** Where the method ends: the projection of the whole log. *)
Ltac log_fin f :=
  intros; try exact I; unfold logInv in *; split_ands; world_cbn;
  rewrite ?omap_snoc;
  match goal with
  | Hx : omap f (calls ?u) = _ |- context [omap f (calls ?u)] => rewrite Hx
  end;
  unfold f; cbn [from_option negb andb orb];
  rewrite <- ?app_assoc; cbn [app]; rewrite ?app_nil_r;
  first [reflexivity | left; reflexivity | right; reflexivity].

(** A step inside a block that leaves the projection as it is. *)
Ltac log_inv f :=
  lazymatch goal with
  | |- hoare _ (bind (gets _) _) _ _ => log_read
  | |- hoare _ (bind (modify _) _) _ _ =>
      apply hoare_bind_modify_inv; [solve [log_state f]|]
  | |- hoare _ (bind (bind _ _) _) _ _ => apply hoare_bind_assoc
  | |- hoare _ (bind (ret _) _) _ _ => apply hoare_bind_ret; cbv beta
  | |- hoare _ (bind (throw _) _) _ _ => apply hoare_bind_throw; solve [log_fin f]
  | |- hoare _ (bind (if negb ?b then _ else _) _) _ _ =>
      destruct b eqn:?; cbn [negb]
  | |- hoare _ (bind (if ?b then _ else _) _) _ _ => destruct b eqn:?
  | |- hoare _ (bind (match ?x with _ => _ end) _) _ _ => destruct x eqn:?
  | |- hoare _ (bind ?m _) _ _ => let h := head_of m in unfold h at 1; cbv beta iota
  | |- hoare _ (ret _) _ _ => apply hoare_ret; intros ? HP; exact HP
  | |- hoare _ (throw _) _ _ => apply hoare_throw; solve [log_fin f]
  | |- hoare _ (modify _) _ _ => apply hoare_modify; solve [log_state f]
  | |- hoare _ (if negb ?b then _ else _) _ _ => destruct b eqn:?; cbn [negb]
  | |- hoare _ (if ?b then _ else _) _ _ => destruct b eqn:?
  | |- hoare _ (match ?x with _ => _ end) _ _ => destruct x eqn:?
  | |- hoare _ (let _ := _ in _) _ _ => cbv zeta
  | |- hoare _ ?m _ _ => let h := head_of m in unfold h; cbv beta iota
  end.

(** A step of the main line: the projection is tracked, a block that
    leaves it as it is is closed at once, any other is followed branch by
    branch. *)
Ltac log_main f :=
  lazymatch goal with
  | |- hoare _ (bind (gets _) _) _ _ => log_read
  | |- hoare (logInv _ ?w0 _) (bind (modify _) _) _ _ =>
      eapply (hoare_bind_modify _ (logInv f w0 _)); [log_state f|]
  | |- hoare _ (bind (ret _) _) _ _ => apply hoare_bind_ret; cbv beta
  | |- hoare _ (bind (throw _) _) _ _ => apply hoare_bind_throw; solve [log_fin f]
  | |- hoare _ (bind (this _) _) _ _ => unfold this at 1
  | |- hoare _ (bind (upd _) _) _ _ => unfold upd at 1
  | |- hoare _ (bind (call _) _) _ _ => unfold call at 1
  | |- hoare _ (bind (defer _) _) _ _ => unfold defer at 1
  | |- hoare _ (bind ?m _) _ _ =>
      first
        [ lazymatch type of m with M unit => idtac end;
          apply hoare_bind_inv; [solve [repeat log_inv f]|intros ?]
        | lazymatch m with
          | bind _ _ => apply hoare_bind_assoc
          | if negb ?b then _ else _ => destruct b eqn:?; cbn [negb]
          | if ?b then _ else _ => destruct b eqn:?
          | match ?x with _ => _ end => destruct x eqn:?
          | _ => let h := head_of m in unfold h at 1; cbv beta iota
          end ]
  | |- hoare _ (ret _) _ _ => apply hoare_ret; solve [log_fin f]
  | |- hoare _ (throw _) _ _ => apply hoare_throw; solve [log_fin f]
  | |- hoare _ (modify _) _ _ => apply hoare_modify; solve [log_fin f]
  | |- hoare _ (if negb ?b then _ else _) _ _ => destruct b eqn:?; cbn [negb]
  | |- hoare _ (if ?b then _ else _) _ _ => destruct b eqn:?
  | |- hoare _ (match ?x with _ => _ end) _ _ => destruct x eqn:?
  | |- hoare _ (let _ := _ in _) _ _ => cbv zeta
  | |- hoare _ ?m _ _ => let h := head_of m in unfold h; cbv beta iota
  end.

Section PaintStack.
Context `{Externals}.

(** [paint] saves the state of the context it draws on once, and once only.
    Where it returns it has restored that context once; in the live preview
    it has restored the preview context as well, which it never saved.
    Where it throws, the context is either not saved yet or left saved. *)
Theorem paint_saves_and_restores_the_target :
  forall w : World,
    let k := targetCtx w in
    match paint w with
    | Ok _ w' =>
        omap stackOf (calls w') =
          omap stackOf (calls w) ++
          (k, Save) :: (k, Restore) ::
          (if previewing w then [(CtxTemp, Restore)] else [])
    | Throw _ w' =>
        omap stackOf (calls w') = omap stackOf (calls w) \/
        omap stackOf (calls w') = omap stackOf (calls w) ++ [(k, Save)]
    end.
Proof.
  intros w. cbv zeta.
  apply (fun Q E (Hp : hoare (logInv stackOf w []) paint (fun _ => Q) E) =>
           Hp w).
  2:{ unfold logInv. rewrite app_nil_r. repeat split. }
  unfold paint, targetCtx, previewing, isMaskable.
  repeat log_main stackOf.
Qed.

End PaintStack.

Section PaintDraws.
Context `{Externals}.

(** Only the eraser erases: [paint] sets a compositing operation if and
    only if the tool is the eraser and the layer has a context to draw on,
    and then it is [destination-out] on that context.  The preview canvas
    is never composited by [paint]. *)
Theorem paint_erases_only_with_the_eraser :
  forall w : World,
    let w' := world_of (paint w) in
    omap compositeOf (calls w') =
      omap compositeOf (calls w) ++
      match getContext (targetSurface w) with
      | Some _ =>
          if isTool ERASER (_toolType (sprite w))
          then [(targetCtx w, "destination-out"%string)] else []
      | None => []
      end.
Proof.
  intros w. cbv zeta.
  apply (hoare_world_of (logInv compositeOf w [])).
  2:{ unfold logInv. rewrite app_nil_r. repeat split. }
  unfold paint, targetCtx, targetSurface, isMaskable.
  repeat log_main compositeOf.
Qed.








End PaintDraws.

